(** * Google Maps MCP server handlers: a shallow embedding

    This development embeds [src/google_maps_mcp_server/handlers.py] in Rocq
    and proves properties of the client accessor, the seven tool handlers and
    the tool table.

    Layout:
    - [Py]: the fragment of Python's data model the handlers rely on (numbers,
      JSON-like values, exceptions, truthiness, subscripting, [dict.get],
      iteration);
    - the effect monad [M]: a process state (the module global [gmaps] and a
      log of what was done to the upstream library) threaded through code
      that may raise;
    - the handlers, line by line from the source;
    - the theorems. *)

From Stdlib Require Import ZArith QArith List String Ascii Bool Lia DecimalString.
Import ListNotations.
Set Warnings "-register-all".
Open Scope string_scope.
Open Scope Z_scope.

(* ===================================================================== *)
(** * The Python fragment                                                  *)
(* ===================================================================== *)

Module Py.

(** Python numbers as they reach the handlers. An [int] is a [Z]. A finite
    [float] is represented by the rational it denotes (every finite binary64
    is one), the two infinities and [nan] are kept apart. Comparisons between
    Python ints and floats are exact, so comparing the denoted rationals is
    what the interpreter computes. *)
Inductive number : Type :=
| NInt (z : Z)
| NFloat (q : Q)
| NInf (negative : bool)
| NNan.

(** JSON-like values: what the upstream library returns and what the
    handlers build. A [dict] keeps insertion order, hence an association
    list; lookups take the first binding of a key. *)
Inductive value : Type :=
| VNone
| VBool (b : bool)
| VNum (n : number)
| VStr (s : string)
| VList (l : list value)
| VTuple (l : list value)
| VDict (d : list (string * value)).

(** Exception classes that occur: the ones the handlers raise, the ones the
    interpreter raises on ill-shaped data, and whatever the upstream library
    raises (named by its class). All of them derive from [Exception]. *)
Inductive exn_class : Type :=
| ValueError
| KeyError
| IndexError
| TypeError
| AttributeError
| LibraryError (name : string).

(** An exception: its class and [str(e)], the text an f-string prints. *)
Record exn : Type := Exn { exn_class_of : exn_class; exn_str : string }.

Inductive result (A : Type) : Type :=
| Return (a : A)
| Raise (e : exn).
Arguments Return {A} a.
Arguments Raise {A} e.

Definition rbind {A B} (r : result A) (k : A -> result B) : result B :=
  match r with
  | Return a => k a
  | Raise e => Raise e
  end.

Notation "x <~ r ;; k" := (rbind r (fun x => k))
  (at level 61, r at next level, right associativity).

(** A [for] loop that appends one projected item per element. *)
Fixpoint for_each {A B} (f : A -> result B) (xs : list A) : result (list B) :=
  match xs with
  | [] => Return []
  | x :: xs' =>
      y <~ f x ;;
      ys <~ for_each f xs' ;;
      Return (y :: ys)
  end.

(** ** Comparison of numbers: [a <= b] *)

Definition num_le (a b : number) : bool :=
  match a, b with
  | NNan, _ | _, NNan => false
  | NInf true, _ => true
  | _, NInf false => true
  | NInf false, _ => false
  | _, NInf true => false
  | NInt x, NInt y => (x <=? y)%Z
  | NInt x, NFloat q => Qle_bool (inject_Z x) q
  | NFloat p, NInt y => Qle_bool p (inject_Z y)
  | NFloat p, NFloat q => Qle_bool p q
  end.

(** The chained comparison [lo <= x <= hi]. *)
Definition between (lo : Z) (x : number) (hi : Z) : bool :=
  num_le (NInt lo) x && num_le x (NInt hi).

(** ** Truthiness *)

Definition str_truthy (s : string) : bool :=
  match s with
  | EmptyString => false
  | _ => true
  end.

Definition list_truthy {A} (l : list A) : bool :=
  match l with
  | [] => false
  | _ => true
  end.

Definition num_truthy (n : number) : bool :=
  match n with
  | NInt z => negb (z =? 0)%Z
  | NFloat q => negb (Qeq_bool q 0)
  | NInf _ => true
  | NNan => true
  end.

Definition truthy (v : value) : bool :=
  match v with
  | VNone => false
  | VBool b => b
  | VNum n => num_truthy n
  | VStr s => str_truthy s
  | VList l => list_truthy l
  | VTuple l => list_truthy l
  | VDict d => list_truthy d
  end.

(** ** Names of types, as they appear in interpreter messages *)

Definition type_name (v : value) : string :=
  match v with
  | VNone => "NoneType"
  | VBool _ => "bool"
  | VNum (NInt _) => "int"
  | VNum _ => "float"
  | VStr _ => "str"
  | VList _ => "list"
  | VTuple _ => "tuple"
  | VDict _ => "dict"
  end.

(** ** Dictionaries *)

Fixpoint lookup {A} (k : string) (d : list (string * A)) : option A :=
  match d with
  | [] => None
  | (k', v) :: d' => if String.eqb k k' then Some v else lookup k d'
  end.

(** [k in d] *)
Definition contains {A} (k : string) (d : list (string * A)) : bool :=
  match lookup k d with
  | Some _ => true
  | None => false
  end.

(** [repr] of the string keys the handlers use (no quote or escape in them). *)
Definition repr_key (k : string) : string := "'" ++ k ++ "'".

(** [v[k]] for a string key. *)
Definition getitem (v : value) (k : string) : result value :=
  match v with
  | VDict d =>
      match lookup k d with
      | Some x => Return x
      | None => Raise (Exn KeyError (repr_key k))
      end
  | VList _ =>
      Raise (Exn TypeError "list indices must be integers or slices, not str")
  | VTuple _ =>
      Raise (Exn TypeError "tuple indices must be integers or slices, not str")
  | VStr _ =>
      Raise (Exn TypeError "string indices must be integers, not 'str'")
  | _ =>
      Raise (Exn TypeError ("'" ++ type_name v ++ "' object is not subscriptable"))
  end.

(** [v[0]]. Dictionaries here have string keys only, so [0] is never one. *)
Definition getitem0 (v : value) : result value :=
  match v with
  | VList l =>
      match l with
      | x :: _ => Return x
      | [] => Raise (Exn IndexError "list index out of range")
      end
  | VTuple l =>
      match l with
      | x :: _ => Return x
      | [] => Raise (Exn IndexError "tuple index out of range")
      end
  | VStr s =>
      match s with
      | String c _ => Return (VStr (String c EmptyString))
      | EmptyString => Raise (Exn IndexError "string index out of range")
      end
  | VDict _ => Raise (Exn KeyError "0")
  | _ =>
      Raise (Exn TypeError ("'" ++ type_name v ++ "' object is not subscriptable"))
  end.

(** [v.get(k, default)]; [v.get(k)] is [get v k VNone]. *)
Definition get (v : value) (k : string) (default : value) : result value :=
  match v with
  | VDict d =>
      match lookup k d with
      | Some x => Return x
      | None => Return default
      end
  | _ =>
      Raise (Exn AttributeError
               ("'" ++ type_name v ++ "' object has no attribute 'get'"))
  end.

Fixpoint chars (s : string) : list value :=
  match s with
  | EmptyString => []
  | String c s' => VStr (String c EmptyString) :: chars s'
  end.

(** What [for x in v] enumerates. *)
Definition iter (v : value) : result (list value) :=
  match v with
  | VList l => Return l
  | VTuple l => Return l
  | VDict d => Return (map (fun kv => VStr (fst kv)) d)
  | VStr s => Return (chars s)
  | _ => Raise (Exn TypeError ("'" ++ type_name v ++ "' object is not iterable"))
  end.

End Py.
Import Py.

(* ===================================================================== *)
(** * The process and the upstream library                                *)
(* ===================================================================== *)

(** A [googlemaps.Client] object: the key it was built with and its identity
    (two constructions give two objects). *)
Record client : Type := Client { client_key : string; client_id : nat }.

(** The upstream operations the handlers invoke, with their arguments. *)
Inductive request : Type :=
| geocode (address : string)
| reverse_geocode (latlng : number * number)
| places (query : string) (search_params : list (string * value))
| place (place_id : string) (fields : list string)
| distance_matrix (origins destinations : list string) (mode units : string)
| elevation (location_tuples : list (number * number))
| directions (origin destination mode units : string).

(** What happened to the upstream library, in order: the record a test
    double would keep. *)
Inductive event : Type :=
| Constructed (c : client)
| Called (c : client) (r : request).

(** The mutable part of the process: the module global [gmaps], the number
    of client objects allocated so far, and the log. *)
Record state : Type := State {
  gmaps : option client;
  allocated : nat;
  log : list event
}.

(** Module start: [gmaps = None]. *)
Definition initial : state := State None 0 [].

(** Everything the handlers read but cannot change. *)
Record world : Type := World {
  (** [os.getenv("GOOGLE_MAPS_API_KEY")], read when the module is loaded *)
  GOOGLE_MAPS_API_KEY : option string;
  (** [googlemaps.Client(key=...)]: [None] when the constructor returns,
      [Some e] when it raises [e] *)
  Client_init : string -> option exn;
  (** the answer of an upstream operation: its return value or the
      exception it raises *)
  upstream : client -> request -> result value;
  (** the text of a finite float in an f-string *)
  float_str : Q -> string
}.

(** [str(n)] as interpolated by an f-string. *)
Definition num_str (w : world) (n : number) : string :=
  match n with
  | NInt z => NilZero.string_of_int (Z.to_int z)
  | NFloat q => float_str w q
  | NInf true => "-inf"
  | NInf false => "inf"
  | NNan => "nan"
  end.

(** ** The effect monad: state that survives a raise *)

Definition M (A : Type) : Type := state -> result A * state.

Definition ret {A} (a : A) : M A := fun s => (Return a, s).

Definition raise {A} (e : exn) : M A := fun s => (Raise e, s).

Definition lift {A} (r : result A) : M A := fun s => (r, s).

Definition bind {A B} (m : M A) (k : A -> M B) : M B :=
  fun s =>
    match m s with
    | (Return a, s') => k a s'
    | (Raise e, s') => (Raise e, s')
    end.

(** [try: m  except Exception as e: h e] *)
Definition try_except {A} (m : M A) (h : exn -> M A) : M A :=
  fun s =>
    match m s with
    | (Return a, s') => (Return a, s')
    | (Raise e, s') => h e s'
    end.

Notation "x <- m ;; k" := (bind m (fun x => k))
  (at level 61, m at next level, right associativity).

(** [raise ValueError(msg)] *)
Definition raise_ValueError {A} (msg : string) : M A :=
  raise (Exn ValueError msg).

(** [googlemaps.Client(key=key)] *)
Definition new_Client (w : world) (key : string) : M client :=
  fun s =>
    match Client_init w key with
    | Some e => (Raise e, s)
    | None =>
        let c := Client key (allocated s) in
        (Return c, State (gmaps s) (S (allocated s)) (log s ++ [Constructed c]))
    end.

(** [gmaps = c] *)
Definition set_gmaps (c : client) : M unit :=
  fun s => (Return tt, State (Some c) (allocated s) (log s)).

(** One upstream operation on the handle [c]. *)
Definition call (w : world) (c : client) (r : request) : M value :=
  fun s => (upstream w c r, State (gmaps s) (allocated s) (log s ++ [Called c r])).

(* ===================================================================== *)
(** * The client accessor                                                 *)
(* ===================================================================== *)

(** [gmaps], read. *)
Definition read_gmaps : M (option client) := fun s => (Return (gmaps s), s).

Definition get_gmaps_client (w : world) : M client :=
  g <- read_gmaps ;;
  match g with
  | None =>
      match GOOGLE_MAPS_API_KEY w with
      | Some k =>
          if negb (str_truthy k) then
            raise_ValueError "GOOGLE_MAPS_API_KEY environment variable is not set"
          else
            c <- new_Client w k ;;
            _ <- set_gmaps c ;;
            ret c
      | None =>
          raise_ValueError "GOOGLE_MAPS_API_KEY environment variable is not set"
      end
  | Some c => ret c
  end.

(* ===================================================================== *)
(** * The tool handlers                                                   *)
(* ===================================================================== *)

(** ** maps_geocode *)

Definition geocode_output (results : value) : result value :=
  result <~ getitem0 results ;;
  geometry <~ getitem result "geometry" ;;
  location <~ getitem geometry "location" ;;
  formatted_address <~ getitem result "formatted_address" ;;
  place_id <~ getitem result "place_id" ;;
  Return (VDict [("location", location);
                 ("formatted_address", formatted_address);
                 ("place_id", place_id)]).

Definition maps_geocode (w : world) (address : string) : M value :=
  if negb (str_truthy address) then
    raise_ValueError "address parameter is required"
  else
    try_except
      (gmaps_client <- get_gmaps_client w ;;
       results <- call w gmaps_client (geocode address) ;;
       if negb (truthy results) then
         raise_ValueError "No results found for the given address"
       else
         lift (geocode_output results))
      (fun e => raise_ValueError ("Geocoding error: " ++ exn_str e)).

(** ** maps_reverse_geocode *)

Definition reverse_geocode_output (results : value) : result value :=
  result <~ getitem0 results ;;
  formatted_address <~ getitem result "formatted_address" ;;
  place_id <~ getitem result "place_id" ;;
  address_components <~ getitem result "address_components" ;;
  Return (VDict [("formatted_address", formatted_address);
                 ("place_id", place_id);
                 ("address_components", address_components)]).

(** [None] for an argument is Python's [None]. *)
Definition maps_reverse_geocode (w : world) (latitude longitude : option number)
  : M value :=
  match latitude, longitude with
  | Some latitude, Some longitude =>
      if negb (between (-90) latitude 90) then
        raise_ValueError "latitude must be between -90 and 90"
      else if negb (between (-180) longitude 180) then
        raise_ValueError "longitude must be between -180 and 180"
      else
        try_except
          (gmaps_client <- get_gmaps_client w ;;
           results <- call w gmaps_client (reverse_geocode (latitude, longitude)) ;;
           if negb (truthy results) then
             raise_ValueError "No results found for the given coordinates"
           else
             lift (reverse_geocode_output results))
          (fun e => raise_ValueError ("Reverse geocoding error: " ++ exn_str e))
  | _, _ =>
      raise_ValueError "latitude and longitude parameters are required"
  end.

(** ** maps_search_places *)

(** [d[k]] on a dictionary of numbers. *)
Definition getitem_num (d : list (string * number)) (k : string) : result number :=
  match lookup k d with
  | Some x => Return x
  | None => Raise (Exn KeyError (repr_key k))
  end.

(** [radius is not None and (radius <= 0 or radius > 50000)] *)
Definition radius_out_of_range (radius : option Z) : bool :=
  match radius with
  | Some r => (r <=? 0) || (50000 <? r)
  | None => false
  end.

(** The block that fills [search_params]. *)
Definition build_search_params (location : option (list (string * number)))
    (radius : option Z) : result (list (string * value)) :=
  match location with
  | Some loc =>
      if list_truthy loc then
        if negb (contains "latitude" loc) || negb (contains "longitude" loc) then
          Raise (Exn ValueError "location must contain both latitude and longitude")
        else
          match radius with
          | Some r =>
              if negb (r =? 0) then
                lat <~ getitem_num loc "latitude" ;;
                lng <~ getitem_num loc "longitude" ;;
                Return [("location", VTuple [VNum lat; VNum lng]);
                        ("radius", VNum (NInt r))]
              else Return []
          | None => Return []
          end
      else Return []
  | None => Return []
  end.

Definition project_place (place : value) : result value :=
  name <~ get place "name" (VStr "") ;;
  formatted_address <~ get place "formatted_address" (VStr "") ;;
  geometry <~ get place "geometry" (VDict []) ;;
  location <~ get geometry "location" (VDict []) ;;
  place_id <~ get place "place_id" (VStr "") ;;
  rating <~ get place "rating" VNone ;;
  types <~ get place "types" (VList []) ;;
  Return (VDict [("name", name);
                 ("formatted_address", formatted_address);
                 ("location", location);
                 ("place_id", place_id);
                 ("rating", rating);
                 ("types", types)]).

Definition search_places_output (results : value) : result value :=
  found <~ get results "results" (VList []) ;;
  items <~ iter found ;;
  places <~ for_each project_place items ;;
  Return (VDict [("places", VList places)]).

Definition maps_search_places (w : world) (query : string)
    (location : option (list (string * number))) (radius : option Z) : M value :=
  if negb (str_truthy query) then
    raise_ValueError "query parameter is required"
  else if radius_out_of_range radius then
    raise_ValueError "radius must be between 1 and 50000 meters"
  else
    try_except
      (gmaps_client <- get_gmaps_client w ;;
       search_params <- lift (build_search_params location radius) ;;
       results <- call w gmaps_client (places query search_params) ;;
       lift (search_places_output results))
      (fun e => raise_ValueError ("Places search error: " ++ exn_str e)).

(** ** maps_place_details *)

Definition place_fields : list string :=
  ["name"; "formatted_address"; "geometry"; "formatted_phone_number";
   "website"; "rating"; "reviews"; "opening_hours"].

Definition project_review (review : value) : result value :=
  author_name <~ get review "author_name" (VStr "") ;;
  rating <~ get review "rating" (VNum (NInt 0)) ;;
  text <~ get review "text" (VStr "") ;;
  time <~ get review "time" (VNum (NInt 0)) ;;
  Return (VDict [("author_name", author_name);
                 ("rating", rating);
                 ("text", text);
                 ("time", time)]).

Definition place_details_output (result : value) : Py.result value :=
  place_data <~ get result "result" (VDict []) ;;
  found <~ get place_data "reviews" (VList []) ;;
  items <~ iter found ;;
  reviews <~ for_each project_review items ;;
  name <~ get place_data "name" (VStr "") ;;
  formatted_address <~ get place_data "formatted_address" (VStr "") ;;
  geometry <~ get place_data "geometry" (VDict []) ;;
  location <~ get geometry "location" (VDict []) ;;
  formatted_phone_number <~ get place_data "formatted_phone_number" (VStr "") ;;
  website <~ get place_data "website" (VStr "") ;;
  rating <~ get place_data "rating" VNone ;;
  opening_hours <~ get place_data "opening_hours" (VDict []) ;;
  Return (VDict [("name", name);
                 ("formatted_address", formatted_address);
                 ("location", location);
                 ("formatted_phone_number", formatted_phone_number);
                 ("website", website);
                 ("rating", rating);
                 ("reviews", VList reviews);
                 ("opening_hours", opening_hours)]).

Definition maps_place_details (w : world) (place_id : string) : M value :=
  if negb (str_truthy place_id) then
    raise_ValueError "place_id parameter is required"
  else
    try_except
      (gmaps_client <- get_gmaps_client w ;;
       result <- call w gmaps_client (place place_id place_fields) ;;
       lift (place_details_output result))
      (fun e => raise_ValueError ("Place details error: " ++ exn_str e)).

(** ** maps_distance_matrix *)

Definition valid_modes : list string :=
  ["driving"; "walking"; "bicycling"; "transit"].

(** [mode in valid_modes] *)
Definition mode_is_valid (mode : string) : bool :=
  existsb (String.eqb mode) valid_modes.

(** A parameter with a default: [None] stands for an omitted argument. *)
Definition with_default {A} (given : option A) (default : A) : A :=
  match given with
  | Some a => a
  | None => default
  end.

Definition mode_message : string :=
  "mode must be one of: " ++ String.concat ", " valid_modes.

Definition project_element (element : value) : result value :=
  status <~ get element "status" (VStr "") ;;
  duration <~ get element "duration" VNone ;;
  distance <~ get element "distance" VNone ;;
  Return (VDict [("status", status);
                 ("duration", duration);
                 ("distance", distance)]).

Definition project_row (row : value) : result value :=
  found <~ get row "elements" (VList []) ;;
  items <~ iter found ;;
  elements <~ for_each project_element items ;;
  Return (VDict [("elements", VList elements)]).

Definition distance_matrix_output (result : value) : Py.result value :=
  found <~ get result "rows" (VList []) ;;
  items <~ iter found ;;
  results <~ for_each project_row items ;;
  origin_addresses <~ get result "origin_addresses" (VList []) ;;
  destination_addresses <~ get result "destination_addresses" (VList []) ;;
  Return (VDict [("origin_addresses", origin_addresses);
                 ("destination_addresses", destination_addresses);
                 ("results", VList results)]).

Definition maps_distance_matrix (w : world) (origins destinations : list string)
    (mode : option string) : M value :=
  let mode := with_default mode "driving" in
  if negb (list_truthy origins) then
    raise_ValueError "origins parameter is required and cannot be empty"
  else if negb (list_truthy destinations) then
    raise_ValueError "destinations parameter is required and cannot be empty"
  else if negb (mode_is_valid mode) then
    raise_ValueError mode_message
  else
    try_except
      (gmaps_client <- get_gmaps_client w ;;
       result <- call w gmaps_client
                   (distance_matrix origins destinations mode "imperial") ;;
       lift (distance_matrix_output result))
      (fun e => raise_ValueError ("Distance matrix error: " ++ exn_str e)).

(** ** maps_elevation *)

(** The validation loop: one tuple per location, or the first failure. *)
Fixpoint validate_locations (w : world) (locations : list (list (string * number)))
  : result (list (number * number)) :=
  match locations with
  | [] => Return []
  | loc :: rest =>
      if negb (contains "latitude" loc) || negb (contains "longitude" loc) then
        Raise (Exn ValueError
                 "Each location must contain both latitude and longitude")
      else
        lat <~ getitem_num loc "latitude" ;;
        lng <~ getitem_num loc "longitude" ;;
        if negb (between (-90) lat 90) then
          Raise (Exn ValueError
                   ("latitude " ++ num_str w lat ++ " must be between -90 and 90"))
        else if negb (between (-180) lng 180) then
          Raise (Exn ValueError
                   ("longitude " ++ num_str w lng ++ " must be between -180 and 180"))
        else
          location_tuples <~ validate_locations w rest ;;
          Return ((lat, lng) :: location_tuples)
  end.

Definition project_elevation (elevation_result : value) : result value :=
  elevation <~ get elevation_result "elevation" (VNum (NInt 0)) ;;
  location <~ get elevation_result "location" (VDict []) ;;
  resolution <~ get elevation_result "resolution" (VNum (NInt 0)) ;;
  Return (VDict [("elevation", elevation);
                 ("location", location);
                 ("resolution", resolution)]).

Definition elevation_output (result : value) : Py.result value :=
  items <~ iter result ;;
  results <~ for_each project_elevation items ;;
  Return (VDict [("results", VList results)]).

Definition maps_elevation (w : world) (locations : list (list (string * number)))
  : M value :=
  if negb (list_truthy locations) then
    raise_ValueError "locations parameter is required and cannot be empty"
  else
    location_tuples <- lift (validate_locations w locations) ;;
    try_except
      (gmaps_client <- get_gmaps_client w ;;
       result <- call w gmaps_client (elevation location_tuples) ;;
       lift (elevation_output result))
      (fun e => raise_ValueError ("Elevation error: " ++ exn_str e)).

(** ** maps_directions *)

Definition project_step (step : value) : result value :=
  instructions <~ get step "html_instructions" (VStr "") ;;
  distance <~ get step "distance" VNone ;;
  duration <~ get step "duration" VNone ;;
  travel_mode <~ get step "travel_mode" (VStr "") ;;
  Return (VDict [("instructions", instructions);
                 ("distance", distance);
                 ("duration", duration);
                 ("travel_mode", travel_mode)]).

Definition project_route (route : value) : result value :=
  legs <~ get route "legs" (VList [VDict []]) ;;
  leg <~ getitem0 legs ;;
  found <~ get leg "steps" (VList []) ;;
  items <~ iter found ;;
  steps <~ for_each project_step items ;;
  summary <~ get route "summary" (VStr "") ;;
  distance <~ get leg "distance" VNone ;;
  duration <~ get leg "duration" VNone ;;
  Return (VDict [("summary", summary);
                 ("distance", distance);
                 ("duration", duration);
                 ("steps", VList steps)]).

Definition directions_output (result : value) : Py.result value :=
  items <~ iter result ;;
  routes <~ for_each project_route items ;;
  Return (VDict [("routes", VList routes)]).

Definition maps_directions (w : world) (origin destination : string)
    (mode : option string) : M value :=
  let mode := with_default mode "driving" in
  if negb (str_truthy origin) then
    raise_ValueError "origin parameter is required"
  else if negb (str_truthy destination) then
    raise_ValueError "destination parameter is required"
  else if negb (mode_is_valid mode) then
    raise_ValueError mode_message
  else
    try_except
      (gmaps_client <- get_gmaps_client w ;;
       result <- call w gmaps_client
                   (directions origin destination mode "imperial") ;;
       lift (directions_output result))
      (fun e => raise_ValueError ("Directions error: " ++ exn_str e)).

(* ===================================================================== *)
(** * The tool table                                                      *)
(* ===================================================================== *)

Inductive handler : Type :=
| h_maps_geocode
| h_maps_reverse_geocode
| h_maps_search_places
| h_maps_place_details
| h_maps_distance_matrix
| h_maps_elevation
| h_maps_directions.

Definition TOOL_FUNCTIONS : list (string * handler) :=
  [("maps_geocode", h_maps_geocode);
   ("maps_reverse_geocode", h_maps_reverse_geocode);
   ("maps_search_places", h_maps_search_places);
   ("maps_place_details", h_maps_place_details);
   ("maps_distance_matrix", h_maps_distance_matrix);
   ("maps_elevation", h_maps_elevation);
   ("maps_directions", h_maps_directions)].

(** The arguments each handler takes. *)
Definition arguments (h : handler) : Type :=
  match h with
  | h_maps_geocode => string
  | h_maps_reverse_geocode => option number * option number
  | h_maps_search_places =>
      string * option (list (string * number)) * option Z
  | h_maps_place_details => string
  | h_maps_distance_matrix => list string * list string * option string
  | h_maps_elevation => list (list (string * number))
  | h_maps_directions => string * string * option string
  end%type.

(** Calling an entry of the table. *)
Definition invoke (w : world) (h : handler) : arguments h -> M value :=
  match h with
  | h_maps_geocode => fun address => maps_geocode w address
  | h_maps_reverse_geocode =>
      fun '(latitude, longitude) => maps_reverse_geocode w latitude longitude
  | h_maps_search_places =>
      fun '(query, location, radius) => maps_search_places w query location radius
  | h_maps_place_details => fun place_id => maps_place_details w place_id
  | h_maps_distance_matrix =>
      fun '(origins, destinations, mode) =>
        maps_distance_matrix w origins destinations mode
  | h_maps_elevation => fun locations => maps_elevation w locations
  | h_maps_directions =>
      fun '(origin, destination, mode) => maps_directions w origin destination mode
  end.

(* ===================================================================== *)
(** * Vocabulary of the specification                                     *)
(* ===================================================================== *)

(** [lo <= x <= hi] as a statement about the number denoted; [nan] and the
    infinities are in no range. *)
Definition in_range (lo : Z) (x : number) (hi : Z) : Prop :=
  match x with
  | NInt z => lo <= z <= hi
  | NFloat q => (inject_Z lo <= q /\ q <= inject_Z hi)%Q
  | NInf _ => False
  | NNan => False
  end.

(** A coordinate: both fields present and in range. *)
Definition is_coordinate (loc : list (string * number)) (lat lng : number) : Prop :=
  lookup "latitude" loc = Some lat /\
  lookup "longitude" loc = Some lng /\
  in_range (-90) lat 90 /\
  in_range (-180) lng 180.

Definition valid_location (loc : list (string * number)) : Prop :=
  exists lat lng, is_coordinate loc lat lng.

(** A field is missing from a location. *)
Definition missing_field (loc : list (string * number)) : Prop :=
  lookup "latitude" loc = None \/ lookup "longitude" loc = None.

(** The upstream operations in a log, in order. *)
Fixpoint upstream_calls (l : list event) : list request :=
  match l with
  | [] => []
  | Called _ r :: l' => r :: upstream_calls l'
  | Constructed _ :: l' => upstream_calls l'
  end.

(** How many client objects a log saw constructed. *)
Fixpoint constructions (l : list event) : nat :=
  match l with
  | [] => O
  | Constructed _ :: l' => S (constructions l')
  | Called _ _ :: l' => constructions l'
  end.

(** [msg] contains [part]. *)
Definition mentions (msg part : string) : Prop :=
  exists before after, msg = before ++ part ++ after.

Fixpoint infixb (part msg : string) : bool :=
  String.prefix part msg ||
  match msg with
  | EmptyString => false
  | String _ msg' => infixb part msg'
  end.

(** An error message identifies a location when it quotes one of its
    numbers. *)
Definition identifies (w : world) (msg : string) (loc : list (string * number))
  : Prop :=
  exists k x, In (k, x) loc /\ mentions msg (num_str w x).

(** What a process does with this module: it asks for the client or calls a
    tool. *)
Inductive action : Type :=
| ask_client
| call_tool (h : handler) (a : arguments h).

Definition perform (w : world) (a : action) (s : state) : state :=
  match a with
  | ask_client => snd (get_gmaps_client w s)
  | call_tool h args => snd (invoke w h args s)
  end.

Definition perform_all (w : world) (acts : list action) (s : state) : state :=
  fold_left (fun s a => perform w a s) acts s.

(** The state after calling a handler [n] times with the same arguments. *)
Fixpoint after_calls (w : world) (h : handler) (a : arguments h) (n : nat)
    (s : state) : state :=
  match n with
  | O => s
  | S n' => after_calls w h a n' (snd (invoke w h a s))
  end.

(** What the accessor would answer in a state. *)
Definition accessor_outcome (w : world) (s : state) : result client :=
  fst (get_gmaps_client w s).

(** A computation whose result does not depend on the state and which
    leaves the client cache alone. *)
Definition blind {A} (m : M A) : Prop :=
  (forall s s', fst (m s) = fst (m s')) /\
  (forall s, gmaps (snd (m s)) = gmaps s).

(** A computation whose result depends on the state only through the
    accessor's answer, and which does not change that answer. *)
Definition repeatable {A} (w : world) (m : M A) : Prop :=
  (forall s s',
     accessor_outcome w s' = accessor_outcome w s -> fst (m s') = fst (m s)) /\
  (forall s, accessor_outcome w (snd (m s)) = accessor_outcome w s).

(** A computation that, run with [c] in the cache, leaves [c] there and
    constructs no client. *)
Definition keeps {A} (c : client) (m : M A) : Prop :=
  forall s,
    gmaps s = Some c ->
    gmaps (snd (m s)) = Some c /\
    constructions (log (snd (m s))) = constructions (log s).

(** ** The directions projection, from the specification

    A route collapses to its first leg: summary of the route, distance,
    duration and steps of that leg; a step keeps its instructions untouched,
    its distance, duration and travel mode. *)

Definition field (d : list (string * value)) (k : string) (absent : value) : value :=
  match lookup k d with
  | Some v => v
  | None => absent
  end.

Definition spec_step (step : list (string * value)) : value :=
  VDict [("instructions", field step "html_instructions" (VStr ""));
         ("distance", field step "distance" VNone);
         ("duration", field step "duration" VNone);
         ("travel_mode", field step "travel_mode" (VStr ""))].

(** An upstream route seen as: its own fields, its first leg, the steps of
    that leg, and the legs after the first. *)
Record route_view : Type := RouteView {
  route_fields : list (string * value);
  first_leg : list (string * value);
  first_leg_steps : list (list (string * value));
  later_legs : list value
}.

Definition spec_route (r : route_view) : value :=
  VDict [("summary", field (route_fields r) "summary" (VStr ""));
         ("distance", field (first_leg r) "distance" VNone);
         ("duration", field (first_leg r) "duration" VNone);
         ("steps", VList (map spec_step (first_leg_steps r)))].

(** The view describes the route. A route without [legs] is seen as one
    whose first leg has no field; a leg without [steps] has none. *)
Definition views (r : route_view) : Prop :=
  (lookup "legs" (route_fields r) =
     Some (VList (VDict (first_leg r) :: later_legs r)) \/
   (lookup "legs" (route_fields r) = None /\
    first_leg r = [] /\ later_legs r = [])) /\
  (lookup "steps" (first_leg r) = Some (VList (map VDict (first_leg_steps r))) \/
   (lookup "steps" (first_leg r) = None /\ first_leg_steps r = [])).

(** The class of the exception a run ends with, if it ends with one. *)
Definition failure_kind (run : result value * state) : option exn_class :=
  match fst run with
  | Raise e => Some (exn_class_of e)
  | Return _ => None
  end.

(** The location bias of a places request, if it carries one. *)
Definition biased (r : request) : bool :=
  match r with
  | places _ (_ :: _) => true
  | _ => false
  end.

(** ** Effects of a handler *)


(** A computation that leaves the state as it is. *)
Definition still {A} (m : M A) : Prop :=
  forall s, snd (m s) = s.

(** The state after one upstream operation [r] on [c]. *)
Definition called (c : client) (r : request) (s : state) : state :=
  State (gmaps s) (allocated s) (log s ++ [Called c r]).

(** What a block does once it holds the client [c]: nothing to the state,
    or one upstream operation on [c]. *)
Definition one_call_on {A} (c : client) (m : M A) : Prop :=
  forall s, snd (m s) = s \/ exists r, snd (m s) = called c r s.

(** What a handler does to the state: nothing; or what the accessor did;
    or that, followed by one upstream operation on the client the accessor
    returned. *)
Definition one_shot {A} (w : world) (m : M A) : Prop :=
  forall s,
    snd (m s) = s \/
    exists c s1,
      get_gmaps_client w s = (Return c, s1) /\
      (snd (m s) = s1 \/ exists r, snd (m s) = called c r s1).

(** A block holding the client [c] that returns a value only after one
    upstream operation on [c]. *)
Definition returns_after_call {A} (c : client) (m : M A) : Prop :=
  forall s v, fst (m s) = Return v -> exists r, snd (m s) = called c r s.

(** A handler that returns a value only after the accessor gave a client
    and one upstream operation was made on it. *)
Definition answers_by_calling {A} (w : world) (m : M A) : Prop :=
  forall s v,
    fst (m s) = Return v ->
    exists c s1 r,
      get_gmaps_client w s = (Return c, s1) /\ snd (m s) = called c r s1.

(** The log of a process that has one client, built from the key of the
    environment and cached, on which every upstream operation was made. *)
Definition served_by_one_client (w : world) (s : state) : Prop :=
  (gmaps s = None /\ log s = []) \/
  exists c requests,
    gmaps s = Some c /\
    GOOGLE_MAPS_API_KEY w = Some (client_key c) /\
    log s = Constructed c :: map (Called c) requests.

(** ** Output entries, field by field *)

(** [d.get("geometry", {}).get("location", {})] when the geometry, if
    there is one, is a dictionary. *)
Definition location_of (d : list (string * value)) : value :=
  match lookup "geometry" d with
  | Some (VDict g) => field g "location" (VDict [])
  | _ => VDict []
  end.

(** The geometry of an upstream record is absent or a dictionary. *)
Definition geometry_ok (d : list (string * value)) : Prop :=
  lookup "geometry" d = None \/ exists g, lookup "geometry" d = Some (VDict g).

Definition place_entry (p : list (string * value)) : value :=
  VDict [("name", field p "name" (VStr ""));
         ("formatted_address", field p "formatted_address" (VStr ""));
         ("location", location_of p);
         ("place_id", field p "place_id" (VStr ""));
         ("rating", field p "rating" VNone);
         ("types", field p "types" (VList []))].

Definition review_entry (r : list (string * value)) : value :=
  VDict [("author_name", field r "author_name" (VStr ""));
         ("rating", field r "rating" (VNum (NInt 0)));
         ("text", field r "text" (VStr ""));
         ("time", field r "time" (VNum (NInt 0)))].

Definition details_entry (d : list (string * value))
    (reviews : list (list (string * value))) : value :=
  VDict [("name", field d "name" (VStr ""));
         ("formatted_address", field d "formatted_address" (VStr ""));
         ("location", location_of d);
         ("formatted_phone_number", field d "formatted_phone_number" (VStr ""));
         ("website", field d "website" (VStr ""));
         ("rating", field d "rating" VNone);
         ("reviews", VList (map review_entry reviews));
         ("opening_hours", field d "opening_hours" (VDict []))].

Definition element_entry (e : list (string * value)) : value :=
  VDict [("status", field e "status" (VStr ""));
         ("duration", field e "duration" VNone);
         ("distance", field e "distance" VNone)].

Definition row_entry (elements : list (list (string * value))) : value :=
  VDict [("elements", VList (map element_entry elements))].

Definition elevation_entry (e : list (string * value)) : value :=
  VDict [("elevation", field e "elevation" (VNum (NInt 0)));
         ("location", field e "location" (VDict []));
         ("resolution", field e "resolution" (VNum (NInt 0)))].

(** An upstream list field of a record: the list, or nothing when the
    field is absent. *)
Definition list_field (d : list (string * value)) (k : string)
    (items : list value) : Prop :=
  lookup k d = Some (VList items) \/ (lookup k d = None /\ items = []).

(** ** Sample worlds *)

(** A credential is set, construction succeeds, and every upstream operation
    answers [answer]. *)
Definition fixture (answer : result value) : world :=
  World (Some "AIzaSample") (fun _ => None) (fun _ _ => answer)
        (fun _ => "(float)").

(** No credential in the environment. *)
Definition no_credential : world :=
  World None (fun _ => None) (fun _ _ => Return VNone) (fun _ => "(float)").

Definition sample_client : client := Client "AIzaSample" 0.

(** A route of two legs; the first has one step. *)
Definition sample_route : route_view :=
  let step := [("html_instructions", VStr "Turn <b>left</b>");
               ("distance", VDict [("text", VStr "0.2 mi")]);
               ("travel_mode", VStr "WALKING")] in
  let leg := [("distance", VDict [("text", VStr "1.0 mi")]);
              ("duration", VDict [("text", VStr "20 mins")]);
              ("steps", VList [VDict step])] in
  let second := VDict [("distance", VDict [("text", VStr "7.5 mi")])] in
  RouteView [("summary", VStr "Main St"); ("legs", VList [VDict leg; second])]
            leg [step] [second].

(* ===================================================================== *)
(** * Basic facts                                                         *)
(* ===================================================================== *)

Lemma between_iff (lo hi : Z) (x : number) :
  between lo x hi = true <-> in_range lo x hi.
Proof.
  unfold between; destruct x as [z | q | [|] | ]; simpl.
  - rewrite andb_true_iff, !Z.leb_le. tauto.
  - rewrite andb_true_iff, !Qle_bool_iff. tauto.
  - split; [discriminate | tauto].
  - split; [discriminate | tauto].
  - split; [discriminate | tauto].
Qed.

Lemma between_false (lo hi : Z) (x : number) :
  between lo x hi = false <-> ~ in_range lo x hi.
Proof.
  rewrite <- between_iff. destruct (between lo x hi); split; intros H;
    try reflexivity; try discriminate; try congruence.
Qed.

(** The accessor with a client in the cache. *)
Lemma get_gmaps_client_cached (w : world) (s : state) (c : client) :
  gmaps s = Some c -> get_gmaps_client w s = (Return c, s).
Proof.
  intros H. unfold get_gmaps_client, bind, read_gmaps. simpl. rewrite H.
  reflexivity.
Qed.

(** Whatever the accessor answers, the same question in the state it left
    gets the same answer and changes nothing. *)
Lemma get_gmaps_client_settles (w : world) (s : state) :
  get_gmaps_client w (snd (get_gmaps_client w s)) =
    (fst (get_gmaps_client w s), snd (get_gmaps_client w s)).
Proof.
  unfold get_gmaps_client at 2 3 4. unfold bind, read_gmaps. simpl.
  destruct (gmaps s) as [c |] eqn:Hg.
  - simpl. now apply get_gmaps_client_cached.
  - destruct (GOOGLE_MAPS_API_KEY w) as [k |] eqn:Hk.
    + destruct (str_truthy k) eqn:Ht; simpl.
      * unfold new_Client. destruct (Client_init w k) as [e |] eqn:Hc; simpl.
        -- unfold get_gmaps_client, bind, read_gmaps. simpl.
           rewrite Hg, Hk, Ht. simpl. unfold new_Client. now rewrite Hc.
        -- now apply get_gmaps_client_cached.
      * unfold get_gmaps_client, bind, read_gmaps. simpl.
        now rewrite Hg, Hk, Ht.
    + simpl. unfold get_gmaps_client, bind, read_gmaps. simpl.
      now rewrite Hg, Hk.
Qed.

(** A successful accessor leaves its answer in the cache; a failing one
    leaves the state as it was. *)
Lemma get_gmaps_client_returns (w : world) (s s1 : state) (c : client) :
  get_gmaps_client w s = (Return c, s1) -> gmaps s1 = Some c.
Proof.
  unfold get_gmaps_client, bind, read_gmaps, raise_ValueError, raise. simpl.
  destruct (gmaps s) as [c0 |] eqn:Hg.
  - intros H; inversion H; subst; assumption.
  - destruct (GOOGLE_MAPS_API_KEY w) as [k |]; [| discriminate].
    destruct (str_truthy k); simpl; [| discriminate].
    unfold new_Client. destruct (Client_init w k); simpl; [discriminate |].
    intros H; inversion H; subst; reflexivity.
Qed.

Lemma get_gmaps_client_raises (w : world) (s s1 : state) (e : exn) :
  get_gmaps_client w s = (Raise e, s1) -> s1 = s.
Proof.
  unfold get_gmaps_client, bind, read_gmaps, raise_ValueError, raise. simpl.
  destruct (gmaps s) as [c0 |] eqn:Hg; [discriminate |].
  destruct (GOOGLE_MAPS_API_KEY w) as [k |]; [| now intros H; inversion H].
  destruct (str_truthy k); simpl; [| now intros H; inversion H].
  unfold new_Client. destruct (Client_init w k); simpl.
  - now intros H; inversion H.
  - discriminate.
Qed.

(** The accessor never performs an upstream operation. *)
Lemma get_gmaps_client_calls (w : world) (s : state) :
  upstream_calls (log (snd (get_gmaps_client w s))) = upstream_calls (log s).
Proof.
  unfold get_gmaps_client, bind, read_gmaps, raise_ValueError, raise. simpl.
  destruct (gmaps s); [reflexivity |].
  destruct (GOOGLE_MAPS_API_KEY w) as [k |]; [| reflexivity].
  destruct (str_truthy k); simpl; [| reflexivity].
  unfold new_Client. destruct (Client_init w k); simpl; [reflexivity |].
  induction (log s) as [| [c | c r] l IH]; simpl; congruence.
Qed.

(* ===================================================================== *)
(** * maps_reverse_geocode: range checks come first                       *)
(* ===================================================================== *)

(** C1. A latitude outside [-90, 90] or a longitude outside [-180, 180]
    makes [maps_reverse_geocode] raise a [ValueError] carrying the range
    message and leave the process state untouched: the client accessor is
    not consulted and nothing is sent upstream. For a pair in range the
    checks pass: the accessor is consulted and, on the handle it returns,
    exactly the reverse-geocoding operation for that pair is performed. *)
Theorem reverse_geocode_range_checked_first
    (w : world) (lat lng : number) (s : state) :
  (~ in_range (-90) lat 90 \/ ~ in_range (-180) lng 180 ->
     maps_reverse_geocode w (Some lat) (Some lng) s =
       (Raise (Exn ValueError "latitude must be between -90 and 90"), s) \/
     maps_reverse_geocode w (Some lat) (Some lng) s =
       (Raise (Exn ValueError "longitude must be between -180 and 180"), s))
  /\
  (in_range (-90) lat 90 -> in_range (-180) lng 180 ->
     forall c s1, get_gmaps_client w s = (Return c, s1) ->
       log (snd (maps_reverse_geocode w (Some lat) (Some lng) s)) =
         (log s1 ++ [Called c (reverse_geocode (lat, lng))])%list).
Proof.
  split.
  - intros H. unfold maps_reverse_geocode.
    destruct (between (-90) lat 90) eqn:Hlat; simpl.
    + destruct (between (-180) lng 180) eqn:Hlng; simpl.
      * apply between_iff in Hlat, Hlng. tauto.
      * right; reflexivity.
    + left; reflexivity.
  - intros Hlat Hlng c s1 Hc.
    apply between_iff in Hlat, Hlng.
    unfold maps_reverse_geocode. rewrite Hlat, Hlng. simpl.
    unfold try_except, bind. rewrite Hc. unfold call. simpl.
    destruct (upstream w c (reverse_geocode (lat, lng))) as [results | e]; simpl.
    + destruct (truthy results); simpl; [| reflexivity].
      unfold lift. destruct (reverse_geocode_output results); reflexivity.
    + reflexivity.
Qed.

Lemma reverse_geocode_range_checked_first_witness :
  (maps_reverse_geocode (fixture (Return (VList []))) (Some (NInt 91))
     (Some (NInt 0)) initial =
     (Raise (Exn ValueError "latitude must be between -90 and 90"), initial) \/
   maps_reverse_geocode (fixture (Return (VList []))) (Some (NInt 91))
     (Some (NInt 0)) initial =
     (Raise (Exn ValueError "longitude must be between -180 and 180"), initial))
  /\
  log (snd (maps_reverse_geocode (fixture (Return (VList []))) (Some (NInt 45))
              (Some (NFloat (-1225 # 10))) initial)) =
    [Constructed sample_client;
     Called sample_client (reverse_geocode (NInt 45, NFloat (-1225 # 10)))].
Proof.
  split.
  - apply (proj1 (reverse_geocode_range_checked_first
                    (fixture (Return (VList []))) (NInt 91) (NInt 0) initial)).
    left. simpl. lia.
  - apply (proj2 (reverse_geocode_range_checked_first
                    (fixture (Return (VList []))) (NInt 45)
                    (NFloat (-1225 # 10)) initial)
             ltac:(simpl; lia)
             ltac:(simpl; split; unfold Qle; simpl; lia)
             sample_client
             (State (Some sample_client) 1 [Constructed sample_client])).
    reflexivity.
Defined.

(* ===================================================================== *)
(** * maps_elevation: every location is checked before the call          *)
(* ===================================================================== *)

Lemma prefix_append (part rest : string) : String.prefix part (part ++ rest) = true.
Proof.
  induction part as [| a part IH]; simpl; [destruct rest; reflexivity |].
  destruct (ascii_dec a a); [assumption | congruence].
Qed.

Lemma mentions_infixb (msg part : string) : mentions msg part -> infixb part msg = true.
Proof.
  intros (before & rest & ->).
  induction before as [| a before IH]; simpl.
  - assert (H : forall m, String.prefix part m = true -> infixb part m = true)
      by (intros m E; destruct m; cbn [infixb]; rewrite E; reflexivity).
    apply H, prefix_append.
  - rewrite IH. apply orb_true_r.
Qed.

(** The loop over valid locations yields their tuples and goes on. *)
Lemma validate_locations_valid (w : world) (good : list (list (string * number))) :
  Forall valid_location good ->
  exists tuples,
    Forall2 (fun loc t => is_coordinate loc (fst t) (snd t)) good tuples /\
    forall more,
      validate_locations w (good ++ more) =
        (r <~ validate_locations w more ;; Return (tuples ++ r)%list).
Proof.
  induction 1 as [| loc good (lat & lng & Hlat & Hlng & Rlat & Rlng) _ (ts & Hts & IH)].
  - exists []. split; [constructor |]. intros more. simpl.
    destruct (validate_locations w more); reflexivity.
  - exists ((lat, lng) :: ts). split.
    + constructor; [repeat split; assumption | assumption].
    + intros more. simpl. unfold contains, getitem_num.
      rewrite Hlat, Hlng. simpl.
      apply between_iff in Rlat, Rlng. rewrite Rlat, Rlng. simpl.
      rewrite IH. destruct (validate_locations w more); reflexivity.
Qed.

(** The loop at a location that is not a coordinate. *)
Lemma validate_locations_invalid (w : world) (bad : list (string * number))
    (rest : list (list (string * number))) :
  ~ valid_location bad ->
  exists msg,
    validate_locations w (bad :: rest) = Raise (Exn ValueError msg) /\
    (missing_field bad ->
       msg = "Each location must contain both latitude and longitude") /\
    (forall lat lng,
       lookup "latitude" bad = Some lat -> lookup "longitude" bad = Some lng ->
       (~ in_range (-90) lat 90 ->
          msg = "latitude " ++ num_str w lat ++ " must be between -90 and 90") /\
       (in_range (-90) lat 90 ->
          msg = "longitude " ++ num_str w lng ++ " must be between -180 and 180")).
Proof.
  intros Hbad. simpl. unfold contains, getitem_num, missing_field.
  destruct (lookup "latitude" bad) as [lat |] eqn:Hlat;
    [destruct (lookup "longitude" bad) as [lng |] eqn:Hlng |]; simpl.
  - destruct (between (-90) lat 90) eqn:Rlat; simpl.
    + destruct (between (-180) lng 180) eqn:Rlng; simpl.
      * exfalso. apply Hbad. exists lat, lng.
        apply between_iff in Rlat, Rlng. repeat split; assumption.
      * eexists; split; [reflexivity |]. split.
        -- intros [H | H]; discriminate.
        -- intros lat' lng' E1 E2; inversion E1; inversion E2; subst.
           apply between_iff in Rlat. split; [tauto | reflexivity].
    + eexists; split; [reflexivity |]. split.
      * intros [H | H]; discriminate.
      * intros lat' lng' E1 E2; inversion E1; inversion E2; subst.
        apply between_false in Rlat. split; [reflexivity | tauto].
  - eexists; split; [reflexivity |]. split; [reflexivity |].
    intros lat' lng' _ E; discriminate.
  - eexists; split; [reflexivity |]. split; [reflexivity |].
    intros lat' lng' E; discriminate.
Qed.

(** C2, as the code has it. [maps_elevation] checks the locations in order,
    before the client accessor is consulted. The first location that is not
    a coordinate aborts the request with a [ValueError] and an untouched
    state, hence with no upstream operation. If that location has both
    fields, the message quotes the number out of range; if it lacks a field,
    the message is a fixed text. When every location is a coordinate, the one
    upstream operation is performed on the tuples of all of them. *)
Theorem elevation_validates_every_location_first (w : world) (s : state) :
  (forall good bad rest,
     Forall valid_location good -> ~ valid_location bad ->
     exists msg,
       maps_elevation w (good ++ bad :: rest) s = (Raise (Exn ValueError msg), s) /\
       (missing_field bad ->
          msg = "Each location must contain both latitude and longitude") /\
       (forall lat lng,
          lookup "latitude" bad = Some lat -> lookup "longitude" bad = Some lng ->
          (~ in_range (-90) lat 90 ->
             msg = "latitude " ++ num_str w lat ++ " must be between -90 and 90") /\
          (in_range (-90) lat 90 ->
             msg = "longitude " ++ num_str w lng ++ " must be between -180 and 180")))
  /\
  (forall loc locations c s1,
     Forall valid_location (loc :: locations) ->
     get_gmaps_client w s = (Return c, s1) ->
     exists tuples,
       Forall2 (fun l t => is_coordinate l (fst t) (snd t)) (loc :: locations) tuples /\
       log (snd (maps_elevation w (loc :: locations) s)) =
         (log s1 ++ [Called c (elevation tuples)])%list).
Proof.
  split.
  - intros good bad rest Hgood Hbad.
    destruct (validate_locations_valid w good Hgood) as (ts & _ & Happ).
    destruct (validate_locations_invalid w bad rest Hbad) as (msg & Hraise & Hmsg).
    exists msg. split; [| exact Hmsg].
    unfold maps_elevation.
    assert (Hne : list_truthy (good ++ bad :: rest) = true)
      by (destruct good; reflexivity).
    rewrite Hne. simpl. unfold bind, lift. rewrite Happ, Hraise. reflexivity.
  - intros loc locations c s1 Hall Hc.
    destruct (validate_locations_valid w (loc :: locations) Hall) as (ts & Hts & Happ).
    exists ts. split; [exact Hts |].
    specialize (Happ []). rewrite app_nil_r in Happ. simpl rbind in Happ.
    rewrite app_nil_r in Happ.
    unfold maps_elevation. cbn [list_truthy negb]. unfold bind at 1, lift at 1.
    rewrite Happ. unfold try_except, bind. rewrite Hc. unfold call. simpl.
    destruct (upstream w c (elevation ts)) as [result | e]; simpl.
    + unfold lift. destruct (elevation_output result); reflexivity.
    + reflexivity.
Qed.

Lemma elevation_validates_every_location_first_witness :
  exists msg,
    maps_elevation (fixture (Return (VList [])))
      ([[("latitude", NInt 10); ("longitude", NInt 20)]] ++
       [("latitude", NInt 91); ("longitude", NInt 0)] :: [])%list initial =
      (Raise (Exn ValueError msg), initial) /\
    msg = "latitude 91 must be between -90 and 90".
Proof.
  destruct (proj1 (elevation_validates_every_location_first
                     (fixture (Return (VList []))) initial)
              [[("latitude", NInt 10); ("longitude", NInt 20)]]
              [("latitude", NInt 91); ("longitude", NInt 0)] [])
    as (msg & Hrun & _ & Hmsg).
  - repeat constructor. exists (NInt 10), (NInt 20).
    repeat split; simpl; lia.
  - intros (lat & lng & Hlat & _ & Rlat & _).
    inversion Hlat; subst. simpl in Rlat. lia.
  - exists msg. split; [exact Hrun |].
    apply (proj1 (Hmsg (NInt 91) (NInt 0) eq_refl eq_refl)).
    simpl. lia.
Defined.

(** C2, as stated, fails: a location that lacks a field, among valid ones,
    stops the request with a message that quotes none of its numbers. *)
Lemma elevation_missing_field_message_names_nothing :
  let w := fixture (Return (VList [])) in
  let bad := [("latitude", NInt 10)] in
  missing_field bad /\
  ~ (exists msg,
       maps_elevation w [[("latitude", NInt 0); ("longitude", NInt 0)]; bad] initial =
         (Raise (Exn ValueError msg), initial) /\
       identifies w msg bad).
Proof.
  split; [right; reflexivity |].
  intros (msg & Hrun & k & x & Hin & Hm).
  vm_compute in Hrun. inversion Hrun; subst msg.
  destruct Hin as [E | []]. inversion E; subst.
  apply mentions_infixb in Hm. vm_compute in Hm. discriminate.
Qed.

(* ===================================================================== *)
(** * maps_search_places: location bias                                   *)
(* ===================================================================== *)

Section SearchPlaces.

Variable w : world.

Lemma build_search_params_no_location (radius : option Z) :
  build_search_params None radius = Return [].
Proof. reflexivity. Qed.

Lemma build_search_params_empty_location (radius : option Z) :
  build_search_params (Some []) radius = Return [].
Proof. reflexivity. Qed.

Lemma build_search_params_no_radius (loc : list (string * number)) :
  loc = [] \/ ~ missing_field loc ->
  build_search_params (Some loc) None = Return [].
Proof.
  intros [-> | H]; [reflexivity |]. unfold build_search_params, contains.
  destruct loc; [reflexivity |]. cbn [list_truthy].
  unfold missing_field in H.
  destruct (lookup "latitude" (p :: loc)); [| tauto].
  destruct (lookup "longitude" (p :: loc)); [| tauto].
  reflexivity.
Qed.

Lemma build_search_params_both (loc : list (string * number)) (lat lng : number)
    (r : Z) :
  lookup "latitude" loc = Some lat -> lookup "longitude" loc = Some lng ->
  0 < r ->
  build_search_params (Some loc) (Some r) =
    Return [("location", VTuple [VNum lat; VNum lng]); ("radius", VNum (NInt r))].
Proof.
  intros Hlat Hlng Hr. unfold build_search_params, contains, getitem_num.
  destruct loc; [discriminate |]. cbn [list_truthy].
  rewrite Hlat, Hlng. simpl.
  destruct (r =? 0) eqn:E; [apply Z.eqb_eq in E; lia | reflexivity].
Qed.

Lemma build_search_params_missing (loc : list (string * number))
    (radius : option Z) :
  loc <> [] -> missing_field loc ->
  build_search_params (Some loc) radius =
    Raise (Exn ValueError "location must contain both latitude and longitude").
Proof.
  intros Hne Hmiss. unfold build_search_params, contains.
  destruct loc; [congruence |]. cbn [list_truthy].
  destruct Hmiss as [-> | ->]; [reflexivity |].
  destruct (lookup "latitude" (p :: loc)); reflexivity.
Qed.

(** Past the two checks on [query] and [radius], with a client at hand, the
    handler performs the places operation with whatever [search_params]
    holds. *)
Lemma search_places_calls (query : string)
    (location : option (list (string * number))) (radius : option Z)
    (search_params : list (string * value)) (s s1 : state) (c : client) :
  str_truthy query = true ->
  radius_out_of_range radius = false ->
  build_search_params location radius = Return search_params ->
  get_gmaps_client w s = (Return c, s1) ->
  log (snd (maps_search_places w query location radius s)) =
    (log s1 ++ [Called c (places query search_params)])%list.
Proof.
  intros Hq Hr Hp Hc. unfold maps_search_places. rewrite Hq, Hr. simpl.
  unfold try_except, bind. rewrite Hc. unfold lift at 1. rewrite Hp.
  unfold call. simpl.
  destruct (upstream w c (places query search_params)) as [results | e]; simpl.
  - unfold lift. destruct (search_places_output results); reflexivity.
  - reflexivity.
Qed.

Lemma radius_in_range (r : Z) : 0 < r <= 50000 -> radius_out_of_range (Some r) = false.
Proof.
  intros H. unfold radius_out_of_range. apply orb_false_iff. split.
  - apply Z.leb_gt; lia.
  - apply Z.ltb_ge; lia.
Qed.

(** C3, as the code has it. The location and radius reach the upstream
    places operation exactly when a non-empty location (with both fields)
    and a radius are given. A well-formed or empty location without a
    radius, a radius without a location, and a radius with an empty location
    are all ignored: the run is the run with neither. *)
Theorem search_places_bias_needs_location_and_radius (query : string) (s : state) :
  (forall c s1,
     str_truthy query = true -> get_gmaps_client w s = (Return c, s1) ->
     log (snd (maps_search_places w query None None s)) =
       (log s1 ++ [Called c (places query [])])%list /\
     forall loc lat lng r,
       lookup "latitude" loc = Some lat -> lookup "longitude" loc = Some lng ->
       0 < r <= 50000 ->
       log (snd (maps_search_places w query (Some loc) (Some r) s)) =
         (log s1 ++
          [Called c (places query [("location", VTuple [VNum lat; VNum lng]);
                                   ("radius", VNum (NInt r))])])%list)
  /\
  (forall loc,
     loc = [] \/ ~ missing_field loc ->
     maps_search_places w query (Some loc) None s =
       maps_search_places w query None None s)
  /\
  (forall r,
     0 < r <= 50000 ->
     maps_search_places w query None (Some r) s =
       maps_search_places w query None None s /\
     maps_search_places w query (Some []) (Some r) s =
       maps_search_places w query None None s).
Proof.
  split; [| split].
  - intros c s1 Hq Hc. split.
    + apply search_places_calls; auto.
    + intros loc lat lng r Hlat Hlng Hr.
      apply search_places_calls; auto using radius_in_range.
      apply build_search_params_both; auto; lia.
  - intros loc Hloc. unfold maps_search_places.
    rewrite (build_search_params_no_radius loc Hloc). reflexivity.
  - intros r Hr. unfold maps_search_places.
    rewrite (radius_in_range r Hr). split; reflexivity.
Qed.

Lemma search_places_ordered_checks (query : string) (location : option (list (string * number)))
    (radius : option Z) (s : state) :
  (str_truthy query = false ->
     maps_search_places w query location radius s =
       (Raise (Exn ValueError "query parameter is required"), s)) /\
  (str_truthy query = true ->
   (exists r, radius = Some r /\ (r <= 0 \/ 50000 < r)) ->
     maps_search_places w query location radius s =
       (Raise (Exn ValueError "radius must be between 1 and 50000 meters"), s)).
Proof.
  split.
  - intros Hq. unfold maps_search_places. rewrite Hq. reflexivity.
  - intros Hq (r & -> & Hr). unfold maps_search_places. rewrite Hq. simpl.
    assert (E : (r <=? 0) || (50000 <? r) = true).
    { apply orb_true_iff. destruct Hr; [left; apply Z.leb_le | right; apply Z.ltb_lt]; lia. }
    rewrite E. reflexivity.
Qed.

(** C6, as the code has it. A non-empty location that lacks a field makes
    [maps_search_places] fail with a [ValueError] whatever the other
    arguments and the state are, and no upstream operation is performed.
    The checks come in this order: empty query, radius out of range, then,
    after the client accessor has answered, the fields of the location. *)
Theorem search_places_location_needs_both_fields (query : string)
    (loc : list (string * number)) (radius : option Z) (s : state) :
  loc <> [] -> missing_field loc ->
  (exists msg,
     fst (maps_search_places w query (Some loc) radius s) =
       Raise (Exn ValueError msg)) /\
  upstream_calls (log (snd (maps_search_places w query (Some loc) radius s))) =
    upstream_calls (log s) /\
  (str_truthy query = false ->
     maps_search_places w query (Some loc) radius s =
       (Raise (Exn ValueError "query parameter is required"), s)) /\
  (str_truthy query = true ->
   (exists r, radius = Some r /\ (r <= 0 \/ 50000 < r)) ->
     maps_search_places w query (Some loc) radius s =
       (Raise (Exn ValueError "radius must be between 1 and 50000 meters"), s)) /\
  (str_truthy query = true -> radius_out_of_range radius = false ->
   forall c s1, get_gmaps_client w s = (Return c, s1) ->
     maps_search_places w query (Some loc) radius s =
       (Raise (Exn ValueError
                 "Places search error: location must contain both latitude and longitude"),
        s1)).
Proof.
  intros Hne Hmiss.
  pose proof (build_search_params_missing loc radius Hne Hmiss) as Hp.
  pose proof (search_places_ordered_checks query (Some loc) radius s) as [Hq Hr].
  assert (Hrun : forall c s1,
             str_truthy query = true -> radius_out_of_range radius = false ->
             get_gmaps_client w s = (Return c, s1) ->
             maps_search_places w query (Some loc) radius s =
               (Raise (Exn ValueError
                  "Places search error: location must contain both latitude and longitude"),
                s1)).
  { intros c s1 Eq Er Hc. unfold maps_search_places. rewrite Eq, Er, Hp.
    cbn [negb]. unfold try_except, bind. rewrite Hc. reflexivity. }
  split; [| split; [| split; [| split]]]; auto.
  - destruct (str_truthy query) eqn:Eq; [| rewrite (Hq eq_refl); simpl; eauto].
    destruct (radius_out_of_range radius) eqn:Er.
    + unfold maps_search_places. rewrite Eq, Er. simpl. eauto.
    + destruct (get_gmaps_client w s) as [[c | e] s1] eqn:Hc.
      * rewrite (Hrun c s1 eq_refl eq_refl eq_refl). simpl. eauto.
      * unfold maps_search_places. rewrite Eq, Er. cbn [negb].
        unfold try_except, bind. rewrite Hc. simpl. eauto.
  - destruct (str_truthy query) eqn:Eq; [| rewrite (Hq eq_refl); reflexivity].
    destruct (radius_out_of_range radius) eqn:Er.
    + unfold maps_search_places. rewrite Eq, Er. reflexivity.
    + pose proof (get_gmaps_client_calls w s) as Hcalls.
      destruct (get_gmaps_client w s) as [[c | e] s1] eqn:Hc.
      * rewrite (Hrun c s1 eq_refl eq_refl eq_refl). exact Hcalls.
      * unfold maps_search_places. rewrite Eq, Er. cbn [negb].
        unfold try_except, bind. rewrite Hc. simpl. exact Hcalls.
  - intros Eq Er c s1 Hc. exact (Hrun c s1 Eq Er Hc).
Qed.

End SearchPlaces.

Lemma search_places_bias_needs_location_and_radius_witness :
  let w := fixture (Return (VDict [])) in
  let here := [("latitude", NInt 1); ("longitude", NInt 2)] in
  log (snd (maps_search_places w "pizza" (Some here) (Some 500) initial)) =
    [Constructed sample_client;
     Called sample_client
       (places "pizza" [("location", VTuple [VNum (NInt 1); VNum (NInt 2)]);
                        ("radius", VNum (NInt 500))])] /\
  maps_search_places w "pizza" (Some here) None initial =
    maps_search_places w "pizza" None None initial /\
  maps_search_places w "pizza" None (Some 500) initial =
    maps_search_places w "pizza" None None initial.
Proof.
  intros w here.
  destruct (search_places_bias_needs_location_and_radius w "pizza" initial)
    as (Hboth & Hloc & Hrad).
  split; [| split].
  - apply (proj2 (Hboth sample_client
                    (State (Some sample_client) 1 [Constructed sample_client])
                    eq_refl eq_refl)
             here (NInt 1) (NInt 2) 500 eq_refl eq_refl).
    lia.
  - apply Hloc. right. intros [H | H]; discriminate.
  - apply (proj1 (Hrad 500 ltac:(lia))).
Defined.

(** C3, as stated, fails: an empty location given together with a radius
    is not passed on; the places operation carries no bias. *)
Lemma search_places_empty_location_with_radius_unbiased :
  let w := fixture (Return (VDict [])) in
  let location : option (list (string * number)) := Some [] in
  let radius : option Z := Some 100 in
  ~ (location <> None /\ radius <> None ->
     exists r,
       In r (upstream_calls
               (log (snd (maps_search_places w "pizza" location radius initial)))) /\
       biased r = true).
Proof.
  intros w location radius H.
  destruct H as (r & Hin & Hb); [split; discriminate |].
  vm_compute in Hin. destruct Hin as [<- | []]. discriminate.
Qed.

Lemma search_places_location_needs_both_fields_witness :
  let w := fixture (Return (VDict [])) in
  maps_search_places w "pizza" (Some [("latitude", NInt 1)]) None initial =
    (Raise (Exn ValueError
              "Places search error: location must contain both latitude and longitude"),
     State (Some sample_client) 1 [Constructed sample_client]).
Proof.
  intros w.
  destruct (search_places_location_needs_both_fields w "pizza"
              [("latitude", NInt 1)] None initial)
    as (_ & _ & _ & _ & H).
  - discriminate.
  - right; reflexivity.
  - apply (H eq_refl eq_refl sample_client). reflexivity.
Defined.

(** C6, as stated, fails: an empty location is given and lacks both
    fields, yet the handler does not fail and the places operation is
    performed. *)
Lemma search_places_empty_location_accepted :
  let w := fixture (Return (VDict [])) in
  let run := maps_search_places w "pizza" (Some []) None initial in
  ~ (missing_field [] ->
     (exists msg, fst run = Raise (Exn ValueError msg)) /\
     upstream_calls (log (snd run)) = []).
Proof.
  intros w run H.
  destruct H as [_ Hcalls]; [left; reflexivity |].
  vm_compute in Hcalls. discriminate.
Qed.

(* ===================================================================== *)
(** * maps_distance_matrix and maps_directions: the travel mode           *)
(* ===================================================================== *)

Lemma mode_is_valid_iff (mode : string) :
  mode_is_valid mode = true <-> In mode valid_modes.
Proof.
  unfold mode_is_valid. rewrite existsb_exists. split.
  - intros (m & Hin & E). apply String.eqb_eq in E. now subst.
  - intros Hin. exists mode. split; [assumption | apply String.eqb_refl].
Qed.

(** C4. A mode outside the four travel modes makes [maps_distance_matrix]
    and [maps_directions] raise a [ValueError] and leave the state
    untouched, so nothing goes upstream. Omitting the mode is passing
    "driving", and "driving" is what the upstream operation then gets. *)
Theorem travel_mode_validated_and_defaulted (w : world) (s : state) :
  (forall mode, ~ In mode valid_modes ->
     (forall origins destinations, exists msg,
        maps_distance_matrix w origins destinations (Some mode) s =
          (Raise (Exn ValueError msg), s)) /\
     (forall origin destination, exists msg,
        maps_directions w origin destination (Some mode) s =
          (Raise (Exn ValueError msg), s)))
  /\
  (forall origins destinations,
     maps_distance_matrix w origins destinations None s =
       maps_distance_matrix w origins destinations (Some "driving") s /\
     (origins <> [] -> destinations <> [] ->
      forall c s1, get_gmaps_client w s = (Return c, s1) ->
        log (snd (maps_distance_matrix w origins destinations None s)) =
          (log s1 ++
           [Called c (distance_matrix origins destinations "driving" "imperial")])%list))
  /\
  (forall origin destination,
     maps_directions w origin destination None s =
       maps_directions w origin destination (Some "driving") s /\
     (origin <> "" -> destination <> "" ->
      forall c s1, get_gmaps_client w s = (Return c, s1) ->
        log (snd (maps_directions w origin destination None s)) =
          (log s1 ++
           [Called c (directions origin destination "driving" "imperial")])%list)).
Proof.
  split; [| split].
  - intros mode Hmode.
    assert (E : mode_is_valid mode = false).
    { destruct (mode_is_valid mode) eqn:E; [| reflexivity].
      apply mode_is_valid_iff in E. contradiction. }
    split.
    + intros origins destinations. unfold maps_distance_matrix. cbv zeta; cbn [with_default].
      destruct (list_truthy origins); simpl; [| eexists; reflexivity].
      destruct (list_truthy destinations); simpl; [| eexists; reflexivity].
      rewrite E. simpl. eexists; reflexivity.
    + intros origin destination. unfold maps_directions. cbv zeta; cbn [with_default].
      destruct (str_truthy origin); simpl; [| eexists; reflexivity].
      destruct (str_truthy destination); simpl; [| eexists; reflexivity].
      rewrite E. simpl. eexists; reflexivity.
  - intros origins destinations. split; [reflexivity |].
    intros Ho Hd c s1 Hc. unfold maps_distance_matrix. cbv zeta; cbn [with_default].
    destruct origins; [congruence |]. destruct destinations; [congruence |].
    cbn [list_truthy negb]. change (mode_is_valid "driving") with true.
    cbn [negb]. unfold try_except, bind. rewrite Hc. unfold call. simpl.
    destruct (upstream w c _) as [result | e]; simpl.
    + unfold lift. destruct (distance_matrix_output result); reflexivity.
    + reflexivity.
  - intros origin destination. split; [reflexivity |].
    intros Ho Hd c s1 Hc. unfold maps_directions. cbv zeta; cbn [with_default].
    destruct origin; [congruence |]. destruct destination; [congruence |].
    cbn [str_truthy negb]. change (mode_is_valid "driving") with true.
    cbn [negb]. unfold try_except, bind. rewrite Hc. unfold call. simpl.
    destruct (upstream w c _) as [result | e]; simpl.
    + unfold lift. destruct (directions_output result); reflexivity.
    + reflexivity.
Qed.

Lemma travel_mode_validated_and_defaulted_witness :
  let w := fixture (Return (VDict [])) in
  (exists msg,
     maps_distance_matrix w ["Paris"] ["Lyon"] (Some "flying") initial =
       (Raise (Exn ValueError msg), initial)) /\
  (exists msg,
     maps_directions w "Paris" "Lyon" (Some "flying") initial =
       (Raise (Exn ValueError msg), initial)) /\
  log (snd (maps_directions w "Paris" "Lyon" None initial)) =
    [Constructed sample_client;
     Called sample_client (directions "Paris" "Lyon" "driving" "imperial")].
Proof.
  intros w.
  destruct (travel_mode_validated_and_defaulted w initial) as (Hbad & _ & Hdir).
  assert (Hflying : ~ In "flying" valid_modes).
  { simpl. intros [H | [H | [H | [H | []]]]]; discriminate. }
  split; [| split].
  - apply (proj1 (Hbad "flying" Hflying)).
  - apply (proj2 (Hbad "flying" Hflying)).
  - apply (proj2 (Hdir "Paris" "Lyon")
             ltac:(discriminate) ltac:(discriminate) sample_client
             (State (Some sample_client) 1 [Constructed sample_client])).
    reflexivity.
Defined.

(* ===================================================================== *)
(** * maps_geocode and maps_reverse_geocode: failures                     *)
(* ===================================================================== *)

(** C5, as the code has it. With a client at hand, an upstream answer with
    no result makes [maps_geocode] and [maps_reverse_geocode] fail with a
    [ValueError] whose message is the tool's prefix followed by the
    no-results text; an upstream exception makes them fail with a
    [ValueError] whose message is the same prefix followed by the text of
    that exception. Both failures have the same class and the same
    wrapping. *)
Theorem no_results_wrapped_like_upstream_failure
    (w : world) (s s1 : state) (c : client) :
  get_gmaps_client w s = (Return c, s1) ->
  (forall address, address <> "" ->
     (forall results,
        upstream w c (geocode address) = Return results ->
        truthy results = false ->
        fst (maps_geocode w address s) =
          Raise (Exn ValueError
                   ("Geocoding error: " ++ "No results found for the given address"))) /\
     (forall e,
        upstream w c (geocode address) = Raise e ->
        fst (maps_geocode w address s) =
          Raise (Exn ValueError ("Geocoding error: " ++ exn_str e))))
  /\
  (forall lat lng, in_range (-90) lat 90 -> in_range (-180) lng 180 ->
     (forall results,
        upstream w c (reverse_geocode (lat, lng)) = Return results ->
        truthy results = false ->
        fst (maps_reverse_geocode w (Some lat) (Some lng) s) =
          Raise (Exn ValueError
                   ("Reverse geocoding error: " ++
                    "No results found for the given coordinates"))) /\
     (forall e,
        upstream w c (reverse_geocode (lat, lng)) = Raise e ->
        fst (maps_reverse_geocode w (Some lat) (Some lng) s) =
          Raise (Exn ValueError ("Reverse geocoding error: " ++ exn_str e)))).
Proof.
  intros Hc. split.
  - intros address Ha.
    assert (Ht : str_truthy address = true) by (destruct address; [congruence | reflexivity]).
    split.
    + intros results Hu Hr. unfold maps_geocode. rewrite Ht. cbn [negb].
      unfold try_except, bind. rewrite Hc. unfold call. rewrite Hu, Hr.
      reflexivity.
    + intros e Hu. unfold maps_geocode. rewrite Ht. cbn [negb].
      unfold try_except, bind. rewrite Hc. unfold call. rewrite Hu.
      reflexivity.
  - intros lat lng Hlat Hlng. apply between_iff in Hlat, Hlng. split.
    + intros results Hu Hr. unfold maps_reverse_geocode.
      rewrite Hlat, Hlng. cbn [negb].
      unfold try_except, bind. rewrite Hc. unfold call. rewrite Hu, Hr.
      reflexivity.
    + intros e Hu. unfold maps_reverse_geocode.
      rewrite Hlat, Hlng. cbn [negb].
      unfold try_except, bind. rewrite Hc. unfold call. rewrite Hu.
      reflexivity.
Qed.

Lemma no_results_wrapped_like_upstream_failure_witness :
  fst (maps_geocode (fixture (Return (VList []))) "Nowhere" initial) =
    Raise (Exn ValueError "Geocoding error: No results found for the given address") /\
  fst (maps_reverse_geocode
         (fixture (Raise (Exn (LibraryError "ApiError") "REQUEST_DENIED")))
         (Some (NInt 10)) (Some (NInt 20)) initial) =
    Raise (Exn ValueError "Reverse geocoding error: REQUEST_DENIED").
Proof.
  split.
  - apply (proj1 (proj1 (no_results_wrapped_like_upstream_failure
                           (fixture (Return (VList []))) initial
                           (State (Some sample_client) 1 [Constructed sample_client])
                           sample_client eq_refl)
                    "Nowhere" ltac:(discriminate))
             (VList []) eq_refl eq_refl).
  - apply (proj2 (proj2 (no_results_wrapped_like_upstream_failure
                           (fixture (Raise (Exn (LibraryError "ApiError") "REQUEST_DENIED")))
                           initial
                           (State (Some sample_client) 1 [Constructed sample_client])
                           sample_client eq_refl)
                    (NInt 10) (NInt 20) ltac:(simpl; lia) ltac:(simpl; lia))
             (Exn (LibraryError "ApiError") "REQUEST_DENIED") eq_refl).
Defined.

(** C5, as stated, fails: the failure for zero results and the failure for
    an upstream exception are of one and the same kind. *)
Lemma no_results_failure_kind_not_distinct :
  ~ (failure_kind (maps_geocode (fixture (Return (VList []))) "Nowhere" initial) <>
     failure_kind
       (maps_geocode
          (fixture (Raise (Exn (LibraryError "ApiError") "REQUEST_DENIED")))
          "Nowhere" initial)).
Proof.
  intros H. apply H. reflexivity.
Qed.

(* ===================================================================== *)
(** * maps_directions: the projection                                     *)
(* ===================================================================== *)

Lemma for_each_map {A B C} (f : B -> result C) (g : A -> B) (h : A -> C)
    (xs : list A) :
  (forall x, In x xs -> f (g x) = Return (h x)) ->
  for_each f (map g xs) = Return (map h xs).
Proof.
  induction xs as [| x xs IH]; intros H; simpl; [reflexivity |].
  rewrite (H x (or_introl eq_refl)). simpl.
  rewrite IH by (intros y Hy; apply H; right; exact Hy). reflexivity.
Qed.

(** A loop that reaches a failing element fails; it fails with that
    element's exception when the elements before it go through. *)
Lemma for_each_raises {A B} (f : A -> result B) (before after : list A)
    (x : A) (e : exn) :
  f x = Raise e ->
  exists e',
    for_each f (before ++ x :: after) = Raise e' /\
    ((forall y, In y before -> exists out, f y = Return out) -> e' = e).
Proof.
  intros Hx. induction before as [| y before (e' & IH & Hsame)]; simpl.
  - exists e. rewrite Hx. split; [reflexivity | auto].
  - destruct (f y) as [out | ey] eqn:Hy; simpl.
    + exists e'. rewrite IH. simpl. split; [reflexivity |].
      intros Hall. apply Hsame. intros z Hz. apply Hall. right; exact Hz.
    + exists ey. split; [reflexivity |].
      intros Hall. destruct (Hall y (or_introl eq_refl)) as (out & Hout).
      congruence.
Qed.

Lemma get_field (d : list (string * value)) (k : string) (absent : value) :
  get (VDict d) k absent = Return (field d k absent).
Proof. unfold get, field. destruct (lookup k d); reflexivity. Qed.

Lemma project_step_spec (step : list (string * value)) :
  project_step (VDict step) = Return (spec_step step).
Proof. unfold project_step. rewrite !get_field. reflexivity. Qed.

Lemma project_route_spec (r : route_view) :
  views r -> project_route (VDict (route_fields r)) = Return (spec_route r).
Proof.
  destruct r as [fields leg steps later]. unfold views, spec_route.
  cbn [route_fields first_leg first_leg_steps later_legs].
  intros [Hlegs Hsteps]. unfold project_route.
  rewrite !get_field. unfold field at 1.
  destruct Hlegs as [Hl | (Hl & -> & _)]; rewrite Hl;
    cbn [rbind getitem0]; rewrite !get_field; cbn [rbind];
    unfold field at 1;
    (destruct Hsteps as [Hs | [Hs ->]]; rewrite Hs; cbn [iter rbind];
     [rewrite (for_each_map project_step VDict spec_step)
        by (intros; apply project_step_spec)
     |]; reflexivity).
Qed.

(** [maps_directions] with valid arguments, a client and an upstream
    answer: the projection of the answer, or its failure wrapped. *)
Lemma maps_directions_run (w : world) (origin destination mode : string)
    (s s1 : state) (c : client) (answer : value) :
  origin <> "" -> destination <> "" -> In mode valid_modes ->
  get_gmaps_client w s = (Return c, s1) ->
  upstream w c (directions origin destination mode "imperial") = Return answer ->
  fst (maps_directions w origin destination (Some mode) s) =
    match directions_output answer with
    | Return out => Return out
    | Raise e => Raise (Exn ValueError ("Directions error: " ++ exn_str e))
    end.
Proof.
  intros Ho Hd Hm Hc Hu. apply mode_is_valid_iff in Hm.
  unfold maps_directions. cbv zeta; cbn [with_default].
  destruct origin; [congruence |]. destruct destination; [congruence |].
  cbn [str_truthy negb]. rewrite Hm. cbn [negb].
  unfold try_except, bind. rewrite Hc. unfold call. rewrite Hu. unfold lift.
  destruct (directions_output answer); reflexivity.
Qed.

(** C7. Whatever routes the upstream operation returns, each with its
    legs (or with no [legs] at all, its first leg then being empty),
    [maps_directions] returns for each of them the route collapsed to its
    first leg: the route's summary, the leg's distance and duration, and the
    leg's steps with the upstream [html_instructions] unchanged; the legs
    after the first do not matter. *)
Theorem directions_projects_first_leg (w : world)
    (origin destination mode : string) (s s1 : state) (c : client)
    (routes : list route_view) :
  origin <> "" -> destination <> "" -> In mode valid_modes ->
  get_gmaps_client w s = (Return c, s1) ->
  Forall views routes ->
  upstream w c (directions origin destination mode "imperial") =
    Return (VList (map (fun r => VDict (route_fields r)) routes)) ->
  fst (maps_directions w origin destination (Some mode) s) =
    Return (VDict [("routes", VList (map spec_route routes))]).
Proof.
  intros Ho Hd Hm Hc Hviews Hu.
  rewrite (maps_directions_run w origin destination mode s s1 c _ Ho Hd Hm Hc Hu).
  unfold directions_output. simpl iter. cbn [rbind].
  rewrite (for_each_map project_route (fun r => VDict (route_fields r)) spec_route).
  - reflexivity.
  - intros r Hr. apply project_route_spec.
    rewrite Forall_forall in Hviews. auto.
Qed.

Lemma directions_projects_first_leg_witness :
  fst (maps_directions
         (fixture (Return (VList [VDict (route_fields sample_route)])))
         "Home" "Work" (Some "walking") initial) =
    Return (VDict [("routes", VList [spec_route sample_route])]).
Proof.
  apply (directions_projects_first_leg
           (fixture (Return (VList [VDict (route_fields sample_route)])))
           "Home" "Work" "walking" initial
           (State (Some sample_client) 1 [Constructed sample_client])
           sample_client [sample_route]).
  - discriminate.
  - discriminate.
  - simpl; auto.
  - reflexivity.
  - repeat constructor.
  - reflexivity.
Defined.

(** C10. In [maps_directions], a route whose [legs] is an empty list makes
    the whole call fail: indexing the first leg raises, and the handler
    reports a directions error (the index error itself when the routes
    before it go through). A route without [legs] is projected instead: no
    steps, no distance, no duration. *)
Theorem directions_empty_legs_fail_missing_legs_default (w : world)
    (origin destination mode : string) (s s1 : state) (c : client) :
  origin <> "" -> destination <> "" -> In mode valid_modes ->
  get_gmaps_client w s = (Return c, s1) ->
  (forall before route after,
     lookup "legs" route = Some (VList []) ->
     upstream w c (directions origin destination mode "imperial") =
       Return (VList (before ++ VDict route :: after)) ->
     project_route (VDict route) = Raise (Exn IndexError "list index out of range") /\
     exists e,
       fst (maps_directions w origin destination (Some mode) s) =
         Raise (Exn ValueError ("Directions error: " ++ exn_str e)) /\
       ((forall r, In r before -> exists out, project_route r = Return out) ->
        e = Exn IndexError "list index out of range"))
  /\
  (forall route,
     lookup "legs" route = None ->
     upstream w c (directions origin destination mode "imperial") =
       Return (VList [VDict route]) ->
     fst (maps_directions w origin destination (Some mode) s) =
       Return (VDict [("routes",
                       VList [VDict [("summary", field route "summary" (VStr ""));
                                     ("distance", VNone);
                                     ("duration", VNone);
                                     ("steps", VList [])]])])).
Proof.
  intros Ho Hd Hm Hc. split.
  - intros before route after Hlegs Hu.
    assert (Hroute : project_route (VDict route) =
                       Raise (Exn IndexError "list index out of range")).
    { unfold project_route, get. rewrite Hlegs. reflexivity. }
    split; [exact Hroute |].
    destruct (for_each_raises project_route before after (VDict route) _ Hroute)
      as (e & Hloop & Hsame).
    exists e. split; [| exact Hsame].
    rewrite (maps_directions_run w origin destination mode s s1 c _ Ho Hd Hm Hc Hu).
    unfold directions_output. cbn [iter rbind]. rewrite Hloop. reflexivity.
  - intros route Hlegs Hu.
    rewrite (maps_directions_run w origin destination mode s s1 c _ Ho Hd Hm Hc Hu).
    unfold directions_output. cbn [iter rbind for_each].
    unfold project_route. unfold get at 1. rewrite Hlegs.
    cbn [rbind getitem0]. rewrite !get_field. reflexivity.
Qed.

Lemma directions_empty_legs_fail_missing_legs_default_witness :
  fst (maps_directions
         (fixture (Return (VList [VDict (route_fields sample_route);
                                  VDict [("summary", VStr "Back Rd");
                                         ("legs", VList [])]])))
         "Home" "Work" (Some "driving") initial) =
    Raise (Exn ValueError "Directions error: list index out of range") /\
  fst (maps_directions
         (fixture (Return (VList [VDict [("summary", VStr "Back Rd")]])))
         "Home" "Work" (Some "driving") initial) =
    Return (VDict [("routes",
                    VList [VDict [("summary", VStr "Back Rd");
                                  ("distance", VNone);
                                  ("duration", VNone);
                                  ("steps", VList [])]])]).
Proof.
  split.
  - destruct (proj1 (directions_empty_legs_fail_missing_legs_default
                       (fixture (Return (VList [VDict (route_fields sample_route);
                                                VDict [("summary", VStr "Back Rd");
                                                       ("legs", VList [])]])))
                       "Home" "Work" "driving" initial
                       (State (Some sample_client) 1 [Constructed sample_client])
                       sample_client
                       ltac:(discriminate) ltac:(discriminate)
                       ltac:(simpl; auto) eq_refl)
                [VDict (route_fields sample_route)]
                [("summary", VStr "Back Rd"); ("legs", VList [])] []
                eq_refl eq_refl)
      as (_ & e & Hrun & He).
    rewrite Hrun, He; [reflexivity |].
    intros r [<- | []]. eexists; reflexivity.
  - apply (proj2 (directions_empty_legs_fail_missing_legs_default
                    (fixture (Return (VList [VDict [("summary", VStr "Back Rd")]])))
                    "Home" "Work" "driving" initial
                    (State (Some sample_client) 1 [Constructed sample_client])
                    sample_client
                    ltac:(discriminate) ltac:(discriminate)
                    ltac:(simpl; auto) eq_refl)
             [("summary", VStr "Back Rd")] eq_refl eq_refl).
Defined.

(* ===================================================================== *)
(** * The client accessor: constructed once, then cached                  *)
(* ===================================================================== *)

Lemma constructions_app (l l' : list event) :
  constructions (l ++ l') = (constructions l + constructions l')%nat.
Proof.
  induction l as [| [c | c r] l IH]; simpl; [reflexivity | now rewrite IH | exact IH].
Qed.

Section Keeps.

Variable w : world.
Variable c : client.

Lemma keeps_raise {A} (msg : string) : keeps c (@raise_ValueError A msg).
Proof. intros s H. simpl. auto. Qed.

Lemma keeps_lift {A} (r : result A) : keeps c (lift r).
Proof. intros s H. simpl. auto. Qed.

Lemma keeps_call (c' : client) (r : request) : keeps c (call w c' r).
Proof.
  intros s H. simpl. split; [exact H |].
  rewrite constructions_app. simpl. lia.
Qed.

Lemma keeps_get : keeps c (get_gmaps_client w).
Proof.
  intros s H. rewrite (get_gmaps_client_cached w s c H). simpl. auto.
Qed.

Lemma keeps_bind {A B} (m : M A) (k : A -> M B) :
  keeps c m -> (forall a, keeps c (k a)) -> keeps c (bind m k).
Proof.
  intros Hm Hk s H. unfold bind.
  destruct (Hm s H) as [Hg Hn].
  destruct (m s) as [[a | e] s']; simpl in *.
  - destruct (Hk a s' Hg) as [Hg' Hn']. split; congruence.
  - auto.
Qed.

Lemma keeps_try {A} (m : M A) (h : exn -> M A) :
  keeps c m -> (forall e, keeps c (h e)) -> keeps c (try_except m h).
Proof.
  intros Hm Hh s H. unfold try_except.
  destruct (Hm s H) as [Hg Hn].
  destruct (m s) as [[a | e] s']; simpl in *.
  - auto.
  - destruct (Hh e s' Hg) as [Hg' Hn']. split; congruence.
Qed.

End Keeps.

Ltac keeps_step :=
  match goal with
  | |- keeps _ (if ?b then _ else _) => destruct b
  | |- keeps _ (match ?o with _ => _ end) => destruct o
  | |- keeps _ (bind _ _) => apply keeps_bind; [| intros ?]
  | |- keeps _ (try_except _ _) => apply keeps_try; [| intros ?]
  | |- keeps _ (raise_ValueError _) => apply keeps_raise
  | |- keeps _ (lift _) => apply keeps_lift
  | |- keeps _ (call _ _ _) => apply keeps_call
  | |- keeps _ (get_gmaps_client _) => apply keeps_get
  end.

(** No handler replaces a cached client or constructs another. *)
Lemma handlers_keep_client (w : world) (c : client) (h : handler) (a : arguments h) :
  keeps c (invoke w h a).
Proof.
  destruct h; simpl in a |- *.
  - unfold maps_geocode. repeat keeps_step.
  - destruct a as [latitude longitude]. unfold maps_reverse_geocode.
    repeat keeps_step.
  - destruct a as [[query location] radius]. unfold maps_search_places.
    repeat keeps_step.
  - unfold maps_place_details. repeat keeps_step.
  - destruct a as [[origins destinations] mode]. unfold maps_distance_matrix.
    cbv zeta. repeat keeps_step.
  - unfold maps_elevation. repeat keeps_step.
  - destruct a as [[origin destination] mode]. unfold maps_directions.
    cbv zeta. repeat keeps_step.
Qed.

Lemma perform_all_keeps (w : world) (c : client) (acts : list action) (s : state) :
  gmaps s = Some c ->
  gmaps (perform_all w acts s) = Some c /\
  constructions (log (perform_all w acts s)) = constructions (log s).
Proof.
  revert s. induction acts as [| a acts IH]; intros s H; simpl; [auto |].
  assert (Hstep : gmaps (perform w a s) = Some c /\
                  constructions (log (perform w a s)) = constructions (log s)).
  { destruct a as [| h args]; simpl.
    - apply keeps_get, H.
    - apply handlers_keep_client, H. }
  destruct Hstep as [Hg Hn]. destruct (IH _ Hg) as [Hg' Hn'].
  unfold perform_all in *. split; congruence.
Qed.

(** C8. Without the credential (unset or empty) the accessor raises the
    configuration error and caches nothing. When it succeeds on an empty
    cache it has constructed one client, which it leaves in [gmaps]; from
    then on, whatever the process does (asking for the client, calling
    tools), the accessor returns that same client, changes nothing, and no
    further client is constructed. *)
Theorem client_constructed_once_then_cached (w : world) :
  (forall s,
     gmaps s = None ->
     GOOGLE_MAPS_API_KEY w = None \/ GOOGLE_MAPS_API_KEY w = Some "" ->
     get_gmaps_client w s =
       (Raise (Exn ValueError "GOOGLE_MAPS_API_KEY environment variable is not set"),
        s))
  /\
  (forall s c s1,
     gmaps s = None ->
     get_gmaps_client w s = (Return c, s1) ->
     gmaps s1 = Some c /\
     log s1 = (log s ++ [Constructed c])%list /\
     forall acts,
       get_gmaps_client w (perform_all w acts s1) =
         (Return c, perform_all w acts s1) /\
       constructions (log (perform_all w acts s1)) = S (constructions (log s))).
Proof.
  split.
  - intros s Hg Hk. unfold get_gmaps_client, bind, read_gmaps. simpl.
    rewrite Hg. destruct Hk as [-> | ->]; reflexivity.
  - intros s c s1 Hg Hc.
    pose proof (get_gmaps_client_returns w s s1 c Hc) as Hcached.
    assert (Hlog : log s1 = (log s ++ [Constructed c])%list).
    { revert Hc. unfold get_gmaps_client, bind, read_gmaps, raise_ValueError, raise.
      simpl. rewrite Hg.
      destruct (GOOGLE_MAPS_API_KEY w) as [k |]; [| discriminate].
      destruct (str_truthy k); simpl; [| discriminate].
      unfold new_Client. destruct (Client_init w k); simpl; [discriminate |].
      intros H; inversion H; subst; reflexivity. }
    split; [exact Hcached |]. split; [exact Hlog |].
    intros acts. destruct (perform_all_keeps w c acts s1 Hcached) as [Hg' Hn'].
    split.
    + apply get_gmaps_client_cached, Hg'.
    + rewrite Hn', Hlog, constructions_app. simpl. lia.
Qed.

Lemma client_constructed_once_then_cached_witness :
  get_gmaps_client no_credential initial =
    (Raise (Exn ValueError "GOOGLE_MAPS_API_KEY environment variable is not set"),
     initial) /\
  let w := fixture (Return (VList [])) in
  let s1 := State (Some sample_client) 1 [Constructed sample_client] in
  let acts := [call_tool h_maps_geocode "Rome"; ask_client;
               call_tool h_maps_elevation [[("latitude", NInt 1)]]] in
  get_gmaps_client w (perform_all w acts s1) =
    (Return sample_client, perform_all w acts s1) /\
  constructions (log (perform_all w acts s1)) = 1%nat.
Proof.
  split.
  - apply (proj1 (client_constructed_once_then_cached no_credential) initial eq_refl).
    left; reflexivity.
  - intros w s1 acts.
    apply (proj2 (client_constructed_once_then_cached w) initial sample_client s1
             eq_refl eq_refl).
Defined.

(* ===================================================================== *)
(** * Repeated calls give the same result                                 *)
(* ===================================================================== *)

Section Repeat.

Variable w : world.

Lemma blind_raise {A} (msg : string) : blind (@raise_ValueError A msg).
Proof. split; intros; reflexivity. Qed.

Lemma blind_lift {A} (r : result A) : blind (lift r).
Proof. split; intros; reflexivity. Qed.

Lemma blind_call (c : client) (r : request) : blind (call w c r).
Proof. split; intros; reflexivity. Qed.

Lemma blind_bind {A B} (m : M A) (k : A -> M B) :
  blind m -> (forall a, blind (k a)) -> blind (bind m k).
Proof.
  intros [Hr Hg] Hk. split.
  - intros s s'. unfold bind. specialize (Hr s s').
    destruct (m s) as [r t], (m s') as [r' t']. simpl in Hr. subst r'.
    destruct r as [a | e]; [apply (Hk a) | reflexivity].
  - intros s. unfold bind. specialize (Hg s).
    destruct (m s) as [[a | e] t]; simpl in *; [| exact Hg].
    rewrite <- Hg. apply (Hk a).
Qed.

(** An accessor that raised raises again as long as the cache is the same. *)
Lemma accessor_failure_stable (s t u : state) (e : exn) :
  get_gmaps_client w s = (Raise e, t) -> gmaps u = gmaps s ->
  accessor_outcome w u = Raise e.
Proof.
  unfold accessor_outcome, get_gmaps_client, bind, read_gmaps, raise_ValueError, raise.
  simpl. intros H Hu. rewrite Hu.
  destruct (gmaps s); [discriminate |].
  destruct (GOOGLE_MAPS_API_KEY w) as [k |]; [| now inversion H].
  destruct (str_truthy k); simpl in *; [| now inversion H].
  unfold new_Client in *. destruct (Client_init w k); simpl in *.
  - now inversion H.
  - discriminate.
Qed.

Lemma repeatable_raise {A} (msg : string) : repeatable w (@raise_ValueError A msg).
Proof. split; intros; reflexivity. Qed.

Lemma repeatable_after_lift {A B} (r : result A) (k : A -> M B) :
  (forall a, repeatable w (k a)) -> repeatable w (bind (lift r) k).
Proof.
  intros Hk. destruct r as [a | e].
  - exact (Hk a).
  - split; intros; reflexivity.
Qed.

(** The shape every handler has after its argument checks: ask for the
    client, work with it, wrap whatever was raised. *)
Lemma repeatable_guarded {A} (body : client -> M A) (h : exn -> M A) :
  (forall c, blind (body c)) -> (forall e, blind (h e)) ->
  repeatable w (try_except (bind (get_gmaps_client w) body) h).
Proof.
  intros Hbody Hh. split.
  - intros s s' Hacc. unfold accessor_outcome in Hacc.
    unfold try_except, bind.
    destruct (get_gmaps_client w s) as [r t],
             (get_gmaps_client w s') as [r' t'].
    simpl in Hacc. subst r'. destruct r as [c | e].
    + pose proof (proj1 (Hbody c) t' t) as Hr.
      destruct (body c t') as [r1 u'], (body c t) as [r2 u]. simpl in Hr. subst r2.
      destruct r1 as [a | e]; [reflexivity | apply (Hh e)].
    + apply (Hh e).
  - intros s. unfold try_except, bind.
    destruct (get_gmaps_client w s) as [[c | e] t] eqn:Hc.
    + pose proof (get_gmaps_client_returns w s t c Hc) as Hcached.
      pose proof (proj2 (Hbody c) t) as Hg.
      assert (Hfinal : gmaps (snd (let (r, s') := body c t in
                                   match r with
                                   | Return a => (Return a, s')
                                   | Raise e => h e s'
                                   end)) = Some c).
      { destruct (body c t) as [[a | e] u]; simpl in *; [congruence |].
        rewrite (proj2 (Hh e) u). congruence. }
      unfold accessor_outcome at 1.
      rewrite (get_gmaps_client_cached w _ c Hfinal).
      unfold accessor_outcome. rewrite Hc. reflexivity.
    + pose proof (get_gmaps_client_raises w s t e Hc) as ->.
      unfold accessor_outcome at 2. rewrite Hc. simpl.
      apply (accessor_failure_stable s s _ e Hc). apply (Hh e).
Qed.

End Repeat.

Ltac blind_step :=
  match goal with
  | |- blind (if ?b then _ else _) => destruct b
  | |- blind (bind _ _) => apply blind_bind; [| intros ?]
  | |- blind (raise_ValueError _) => apply blind_raise
  | |- blind (lift _) => apply blind_lift
  | |- blind (call _ _ _) => apply blind_call
  end.

Ltac repeatable_step :=
  match goal with
  | |- repeatable _ (if ?b then _ else _) => destruct b
  | |- repeatable _ (match ?o with _ => _ end) => destruct o
  | |- repeatable _ (raise_ValueError _) => apply repeatable_raise
  | |- repeatable _ (bind (lift _) _) => apply repeatable_after_lift; intros ?
  | |- repeatable _ (try_except (bind (get_gmaps_client _) _) _) =>
      apply repeatable_guarded; intros ?; repeat blind_step
  end.

Lemma handlers_repeatable (w : world) (h : handler) (a : arguments h) :
  repeatable w (invoke w h a).
Proof.
  destruct h; simpl in a |- *.
  - unfold maps_geocode. repeat repeatable_step.
  - destruct a as [latitude longitude]. unfold maps_reverse_geocode.
    repeat repeatable_step.
  - destruct a as [[query location] radius]. unfold maps_search_places.
    repeat repeatable_step.
  - unfold maps_place_details. repeat repeatable_step.
  - destruct a as [[origins destinations] mode]. unfold maps_distance_matrix.
    cbv zeta. repeat repeatable_step.
  - unfold maps_elevation. repeat repeatable_step.
  - destruct a as [[origin destination] mode]. unfold maps_directions.
    cbv zeta. repeat repeatable_step.
Qed.

Lemma after_calls_same_accessor (w : world) (h : handler) (a : arguments h)
    (n : nat) (s : state) :
  accessor_outcome w (after_calls w h a n s) = accessor_outcome w s.
Proof.
  revert s. induction n as [| n IH]; intros s; simpl; [reflexivity |].
  rewrite IH. apply (handlers_repeatable w h a).
Qed.

(** The table names every handler. *)
Lemma TOOL_FUNCTIONS_complete (h : handler) :
  exists name, lookup name TOOL_FUNCTIONS = Some h.
Proof.
  destruct h;
    [exists "maps_geocode" | exists "maps_reverse_geocode"
    | exists "maps_search_places" | exists "maps_place_details"
    | exists "maps_distance_matrix" | exists "maps_elevation"
    | exists "maps_directions"]; reflexivity.
Qed.

(** C9. Every entry of the tool table, called again with the same
    arguments against the same upstream answers, gives the same result
    (value or failure), however many calls came before: the result of the
    call after [n] earlier ones is the result of the first. *)
Theorem repeated_calls_same_result (w : world) (name : string) (h : handler)
    (a : arguments h) (n : nat) (s : state) :
  lookup name TOOL_FUNCTIONS = Some h ->
  fst (invoke w h a (after_calls w h a n s)) = fst (invoke w h a s).
Proof.
  intros _. apply (handlers_repeatable w h a), after_calls_same_accessor.
Qed.

Lemma repeated_calls_same_result_witness :
  fst (invoke (fixture (Return (VList [VDict (route_fields sample_route)])))
         h_maps_directions ("Home", "Work", None)
         (after_calls (fixture (Return (VList [VDict (route_fields sample_route)])))
            h_maps_directions ("Home", "Work", None) 3 initial)) =
  fst (invoke (fixture (Return (VList [VDict (route_fields sample_route)])))
         h_maps_directions ("Home", "Work", None) initial).
Proof.
  apply (repeated_calls_same_result
           (fixture (Return (VList [VDict (route_fields sample_route)])))
           "maps_directions" h_maps_directions ("Home", "Work", None) 3 initial).
  reflexivity.
Defined.

(* ===================================================================== *)
(** * Sample runs                                                         *)
(* ===================================================================== *)

Example geocode_first_result :
  fst (maps_geocode
         (fixture (Return (VList [VDict [("geometry",
                                          VDict [("location",
                                                  VDict [("lat", VNum (NInt 37));
                                                         ("lng", VNum (NInt (-122)))])]);
                                         ("formatted_address", VStr "1600 Amphitheatre Pkwy");
                                         ("place_id", VStr "ChIJ2eUgeAK6j4AR")];
                                  VDict [("formatted_address", VStr "elsewhere")]])))
         "1600 Amphitheatre Parkway" initial) =
    Return (VDict [("location", VDict [("lat", VNum (NInt 37));
                                       ("lng", VNum (NInt (-122)))]);
                   ("formatted_address", VStr "1600 Amphitheatre Pkwy");
                   ("place_id", VStr "ChIJ2eUgeAK6j4AR")]).
Proof. reflexivity. Qed.

Example geocode_without_credential :
  maps_geocode no_credential "Rome" initial =
    (Raise (Exn ValueError
              "Geocoding error: GOOGLE_MAPS_API_KEY environment variable is not set"),
     initial).
Proof. reflexivity. Qed.

Example elevation_nan_latitude :
  maps_elevation (fixture (Return (VList [])))
    [[("latitude", NNan); ("longitude", NInt 0)]] initial =
    (Raise (Exn ValueError "latitude nan must be between -90 and 90"), initial).
Proof. reflexivity. Qed.

Example search_places_defaults :
  fst (maps_search_places
         (fixture (Return (VDict [("results", VList [VDict [("name", VStr "Luigi")]])])))
         "pizza" None None initial) =
    Return (VDict [("places",
                    VList [VDict [("name", VStr "Luigi");
                                  ("formatted_address", VStr "");
                                  ("location", VDict []);
                                  ("place_id", VStr "");
                                  ("rating", VNone);
                                  ("types", VList [])]])]).
Proof. reflexivity. Qed.

Example search_places_zero_radius_rejected :
  maps_search_places (fixture (Return (VDict []))) "pizza" None (Some 0) initial =
    (Raise (Exn ValueError "radius must be between 1 and 50000 meters"), initial).
Proof. reflexivity. Qed.

(* ===================================================================== *)
(** * Every failure is a ValueError                                       *)
(* ===================================================================== *)

Section OnlyValueError.

Variable w : world.




(** The validation loop of [maps_elevation] raises [ValueError] only: the
    subscripts come after the membership tests. *)
Lemma validate_locations_raises_ValueError
    (locations : list (list (string * number))) (e : exn) :
  validate_locations w locations = Raise e -> exn_class_of e = ValueError.
Proof.
  induction locations as [| loc rest IH]; simpl; [discriminate |].
  unfold contains, getitem_num.
  destruct (lookup "latitude" loc) as [lat |]; simpl;
    [| intros H; inversion H; reflexivity].
  destruct (lookup "longitude" loc) as [lng |]; simpl;
    [| intros H; inversion H; reflexivity].
  destruct (between (-90) lat 90); simpl; [| intros H; inversion H; reflexivity].
  destruct (between (-180) lng 180); simpl; [| intros H; inversion H; reflexivity].
  destruct (validate_locations w rest) as [ts | e0]; simpl; [discriminate |].
  intros H; inversion H; subst. apply IH. reflexivity.
Qed.

End OnlyValueError.




(* ===================================================================== *)
(** * What a tool call does to the process                                *)
(* ===================================================================== *)

Section Effects.

Variable w : world.

Lemma still_raise {A} (msg : string) : still (@raise_ValueError A msg).
Proof. intros s. reflexivity. Qed.

Lemma still_lift {A} (r : result A) : still (lift r).
Proof. intros s. reflexivity. Qed.

Lemma still_bind {A B} (m : M A) (k : A -> M B) :
  still m -> (forall a, still (k a)) -> still (bind m k).
Proof.
  intros Hm Hk s. unfold bind. specialize (Hm s).
  destruct (m s) as [[a | e] t]; simpl in *; subst; [apply Hk | reflexivity].
Qed.

Lemma one_call_still {A} (c : client) (m : M A) : still m -> one_call_on c m.
Proof. intros H s. left. apply H. Qed.

Lemma one_call_call (c : client) (r : request) : one_call_on c (call w c r).
Proof. intros s. right. exists r. reflexivity. Qed.

(** One operation, then work that leaves the state alone. *)
Lemma one_call_then_still {A B} (c : client) (m : M A) (k : A -> M B) :
  one_call_on c m -> (forall a, still (k a)) -> one_call_on c (bind m k).
Proof.
  intros Hm Hk s. unfold bind. specialize (Hm s).
  destruct (m s) as [[a | e] t]; simpl in *.
  - rewrite (Hk a t). exact Hm.
  - exact Hm.
Qed.

(** Work that leaves the state alone, then at most one operation. *)
Lemma still_then_one_call {A B} (c : client) (m : M A) (k : A -> M B) :
  still m -> (forall a, one_call_on c (k a)) -> one_call_on c (bind m k).
Proof.
  intros Hm Hk s. unfold bind. specialize (Hm s).
  destruct (m s) as [[a | e] t]; simpl in *; subst.
  - apply Hk.
  - left; reflexivity.
Qed.

Lemma one_shot_raise {A} (msg : string) : one_shot w (@raise_ValueError A msg).
Proof. intros s. left. reflexivity. Qed.

Lemma one_shot_after_lift {A B} (r : result A) (k : A -> M B) :
  (forall a, one_shot w (k a)) -> one_shot w (bind (lift r) k).
Proof.
  intros Hk. destruct r as [a | e].
  - exact (Hk a).
  - intros s. left. reflexivity.
Qed.

Lemma one_shot_guarded {A} (body : client -> M A) (h : exn -> M A) :
  (forall c, one_call_on c (body c)) -> (forall e, still (h e)) ->
  one_shot w (try_except (bind (get_gmaps_client w) body) h).
Proof.
  intros Hbody Hh s. unfold try_except, bind.
  destruct (get_gmaps_client w s) as [[c | e] s1] eqn:Hc.
  - right. exists c, s1. split; [reflexivity |].
    specialize (Hbody c s1).
    destruct (body c s1) as [[a | e] t]; simpl in *; [exact Hbody |].
    rewrite (Hh e t). exact Hbody.
  - left. rewrite (Hh e s1). exact (get_gmaps_client_raises w s s1 e Hc).
Qed.

End Effects.

Ltac still_step :=
  match goal with
  | |- still (if ?b then _ else _) => destruct b
  | |- still (raise_ValueError _) => apply still_raise
  | |- still (lift _) => apply still_lift
  | |- still (bind _ _) => apply still_bind; [| intros ?]
  end.

Ltac one_call_step :=
  match goal with
  | |- one_call_on _ (call _ _ _) => apply one_call_call
  | |- one_call_on _ (bind (call _ _ _) _) =>
      apply one_call_then_still; [apply one_call_call | intros ?; repeat still_step]
  | |- one_call_on _ (bind (lift _) _) =>
      apply still_then_one_call; [apply still_lift | intros ?]
  end.

Ltac one_shot_step :=
  match goal with
  | |- one_shot _ (if ?b then _ else _) => destruct b
  | |- one_shot _ (match ?o with _ => _ end) => destruct o
  | |- one_shot _ (raise_ValueError _) => apply one_shot_raise
  | |- one_shot _ (bind (lift _) _) => apply one_shot_after_lift; intros ?
  | |- one_shot _ (try_except (bind (get_gmaps_client _) _) _) =>
      apply one_shot_guarded; intros ?;
      [repeat one_call_step | repeat still_step]
  end.

Lemma handlers_one_shot (w : world) (h : handler) (a : arguments h) :
  one_shot w (invoke w h a).
Proof.
  destruct h; simpl in a |- *.
  - unfold maps_geocode. repeat one_shot_step.
  - destruct a as [latitude longitude]. unfold maps_reverse_geocode.
    repeat one_shot_step.
  - destruct a as [[query location] radius]. unfold maps_search_places.
    repeat one_shot_step.
  - unfold maps_place_details. repeat one_shot_step.
  - destruct a as [[origins destinations] mode]. unfold maps_distance_matrix.
    cbv zeta. repeat one_shot_step.
  - unfold maps_elevation. repeat one_shot_step.
  - destruct a as [[origin destination] mode]. unfold maps_directions.
    cbv zeta. repeat one_shot_step.
Qed.

(** What the accessor does to the log: nothing, or one construction. *)
Lemma get_gmaps_client_log (w : world) (s s1 : state) (c : client) :
  get_gmaps_client w s = (Return c, s1) ->
  (s1 = s /\ gmaps s = Some c) \/
  (gmaps s = None /\ GOOGLE_MAPS_API_KEY w = Some (client_key c) /\
   gmaps s1 = Some c /\ log s1 = (log s ++ [Constructed c])%list).
Proof.
  unfold get_gmaps_client, bind, read_gmaps, raise_ValueError, raise. simpl.
  destruct (gmaps s) as [c0 |] eqn:Hg.
  - intros H; inversion H; subst. left. auto.
  - destruct (GOOGLE_MAPS_API_KEY w) as [k |]; [| discriminate].
    destruct (str_truthy k); simpl; [| discriminate].
    unfold new_Client. destruct (Client_init w k); simpl; [discriminate |].
    intros H; inversion H; subst. right. simpl. auto.
Qed.

Lemma upstream_calls_app (l l' : list event) :
  upstream_calls (l ++ l') = (upstream_calls l ++ upstream_calls l')%list.
Proof.
  induction l as [| [c | c r] l IH]; simpl; [reflexivity | exact IH | now rewrite IH].
Qed.

(** X2. A tool call only appends to the log, and what it appends holds at
    most one construction of a client and at most one upstream operation:
    no handler fans out, retries, or calls upstream twice. *)
Theorem handlers_append_at_most_one_call (w : world) (h : handler)
    (a : arguments h) (s : state) :
  exists events,
    log (snd (invoke w h a s)) = (log s ++ events)%list /\
    (List.length (upstream_calls events) <= 1)%nat /\
    (constructions events <= 1)%nat.
Proof.
  destruct (handlers_one_shot w h a s) as [-> | (c & s1 & Hc & Hrun)].
  - exists []. rewrite app_nil_r. simpl. auto.
  - assert (Hacc : exists built, log s1 = (log s ++ built)%list /\
                     upstream_calls built = [] /\ (constructions built <= 1)%nat).
    { destruct (get_gmaps_client_log w s s1 c Hc) as [[-> _] | (_ & _ & _ & Hl)].
      - exists []. rewrite app_nil_r. simpl. auto.
      - exists [Constructed c]. simpl. auto. }
    destruct Hacc as (built & Hl & Hu & Hn).
    destruct Hrun as [-> | (r & ->)].
    + exists built. rewrite Hu. simpl. auto.
    + exists (built ++ [Called c r])%list. simpl. rewrite Hl, <- app_assoc.
      split; [reflexivity |].
      rewrite upstream_calls_app, constructions_app, Hu. simpl. lia.
Qed.

Lemma perform_one_shot (w : world) (a : action) :
  forall s,
    perform w a s = s \/
    exists c s1,
      get_gmaps_client w s = (Return c, s1) /\
      (perform w a s = s1 \/ exists r, perform w a s = called c r s1).
Proof.
  intros s. destruct a as [| h args]; simpl.
  - destruct (get_gmaps_client w s) as [[c | e] s1] eqn:Hc; simpl.
    + right. exists c, s1. auto.
    + left. exact (get_gmaps_client_raises w s s1 e Hc).
  - apply handlers_one_shot.
Qed.

Lemma served_by_one_client_step (w : world) (a : action) (s : state) :
  served_by_one_client w s -> served_by_one_client w (perform w a s).
Proof.
  intros Hs.
  destruct (perform_one_shot w a s) as [-> | (c & s1 & Hc & Hrun)]; [exact Hs |].
  assert (Hs1 : exists requests,
             gmaps s1 = Some c /\ GOOGLE_MAPS_API_KEY w = Some (client_key c) /\
             log s1 = Constructed c :: map (Called c) requests).
  { destruct (get_gmaps_client_log w s s1 c Hc)
      as [[-> Hg] | (Hnone & Hk & Hg & Hl)].
    - destruct Hs as [[Hn _] | (c0 & rs & Hg0 & Hk & Hl)]; [congruence |].
      assert (c0 = c) by congruence. subst c0. exists rs. auto.
    - destruct Hs as [[_ Hl0] | (c0 & rs & Hg0 & _)]; [| congruence].
      exists []. rewrite Hl, Hl0. auto. }
  destruct Hs1 as (rs & Hg & Hk & Hl). right. exists c.
  destruct Hrun as [-> | (r & ->)].
  - exists rs. auto.
  - exists (rs ++ [r])%list. unfold called. simpl.
    rewrite Hl, map_app. auto.
Qed.

(** X3. Over the whole life of a process, whatever it asks for and
    whichever tools it calls, at most one client is ever constructed, it is
    built with the key of the environment and is the one in the cache, and
    every upstream operation is made on it. *)
Theorem process_served_by_one_client (w : world) (acts : list action) :
  served_by_one_client w (perform_all w acts initial).
Proof.
  assert (H : forall s, served_by_one_client w s ->
                        served_by_one_client w (perform_all w acts s)).
  { induction acts as [| a acts IH]; intros s Hs; simpl; [exact Hs |].
    apply IH, served_by_one_client_step, Hs. }
  apply H. left. split; reflexivity.
Qed.

(** Without a client, a handler changes nothing. *)
Lemma handlers_need_client (w : world) (h : handler) (a : arguments h)
    (s : state) (e : exn) :
  accessor_outcome w s = Raise e ->
  exists msg, invoke w h a s = (Raise (Exn ValueError msg), s).
Proof.
  intros Hacc. unfold accessor_outcome in Hacc.
  assert (Hc : get_gmaps_client w s = (Raise e, s)).
  { destruct (get_gmaps_client w s) as [r t] eqn:Hc. simpl in Hacc. subst r.
    now rewrite (get_gmaps_client_raises w s t e Hc). }
  assert (Hguard : forall (body : client -> M value) (prefix : string),
             try_except (bind (get_gmaps_client w) body)
               (fun e => raise_ValueError (prefix ++ exn_str e)) s =
               (Raise (Exn ValueError (prefix ++ exn_str e)), s)).
  { intros body prefix. unfold try_except, bind. rewrite Hc. reflexivity. }
  destruct h; simpl in a |- *.
  - unfold maps_geocode. destruct (negb (str_truthy a)); [eexists; reflexivity |].
    rewrite Hguard. eauto.
  - destruct a as [[latitude |] [longitude |]]; unfold maps_reverse_geocode;
      try (eexists; reflexivity).
    destruct (negb (between (-90) latitude 90)); [eexists; reflexivity |].
    destruct (negb (between (-180) longitude 180)); [eexists; reflexivity |].
    rewrite Hguard. eauto.
  - destruct a as [[query location] radius]. unfold maps_search_places.
    destruct (negb (str_truthy query)); [eexists; reflexivity |].
    destruct (radius_out_of_range radius); [eexists; reflexivity |].
    rewrite Hguard. eauto.
  - unfold maps_place_details.
    destruct (negb (str_truthy a)); [eexists; reflexivity |].
    rewrite Hguard. eauto.
  - destruct a as [[origins destinations] mode]. unfold maps_distance_matrix.
    cbv zeta.
    destruct (negb (list_truthy origins)); [eexists; reflexivity |].
    destruct (negb (list_truthy destinations)); [eexists; reflexivity |].
    destruct (negb (mode_is_valid _)); [eexists; reflexivity |].
    rewrite Hguard. eauto.
  - unfold maps_elevation.
    destruct (negb (list_truthy a)); [eexists; reflexivity |].
    unfold bind at 1, lift at 1.
    destruct (validate_locations w a) as [ts | e0] eqn:Hv.
    + rewrite Hguard. eauto.
    + pose proof (validate_locations_raises_ValueError w a e0 Hv) as Hcls.
      destruct e0 as [cls msg]. simpl in Hcls. subst cls. eauto.
  - destruct a as [[origin destination] mode]. unfold maps_directions.
    cbv zeta.
    destruct (negb (str_truthy origin)); [eexists; reflexivity |].
    destruct (negb (str_truthy destination)); [eexists; reflexivity |].
    destruct (negb (mode_is_valid _)); [eexists; reflexivity |].
    rewrite Hguard. eauto.
Qed.

(** X4. While the accessor cannot give a client (no credential, or the
    constructor of the library raises), every tool call fails with a
    [ValueError], and nothing the process does changes its state: nothing is
    cached, nothing is sent upstream, and the next call meets the same
    failure. *)
Theorem no_client_no_effect (w : world) (s : state) (e : exn) :
  accessor_outcome w s = Raise e ->
  (forall h a, exists msg, invoke w h a s = (Raise (Exn ValueError msg), s)) /\
  (forall acts,
     perform_all w acts s = s /\
     accessor_outcome w (perform_all w acts s) = Raise e).
Proof.
  intros Hacc. split; [intros h a; exact (handlers_need_client w h a s e Hacc) |].
  assert (Hall : forall acts, perform_all w acts s = s).
  { induction acts as [| a acts IH]; simpl; [reflexivity |].
    assert (Hstep : perform w a s = s).
    { destruct a as [| h args]; simpl.
      - unfold accessor_outcome in Hacc.
        destruct (get_gmaps_client w s) as [r t] eqn:Hc. simpl in Hacc. subst r.
        exact (get_gmaps_client_raises w s t e Hc).
      - destruct (handlers_need_client w h args s e Hacc) as (msg & ->).
        reflexivity. }
    rewrite Hstep. exact IH. }
  intros acts. rewrite Hall. auto.
Qed.

Lemma no_client_no_effect_witness :
  let w := World (Some "bad-key")
                 (fun _ => Some (Exn ValueError "Invalid API key provided."))
                 (fun _ _ => Return VNone) (fun _ => "(float)") in
  (exists msg, invoke w h_maps_geocode "Rome" initial =
                 (Raise (Exn ValueError msg), initial)) /\
  perform_all w [call_tool h_maps_geocode "Rome"; ask_client;
                 call_tool h_maps_directions ("A", "B", None)] initial = initial.
Proof.
  intros w.
  destruct (no_client_no_effect w initial
              (Exn ValueError "Invalid API key provided.") eq_refl)
    as [Hcall Hall].
  split.
  - apply (Hcall h_maps_geocode "Rome").
  - apply (proj1 (Hall _)).
Defined.

(* ===================================================================== *)
(** * One call, its request and its answer                                *)
(* ===================================================================== *)

(** The text a handler puts in front of what was raised inside it. *)
Lemma guarded_call_run (w : world) (req : request) (out : value -> result value)
    (prefix : string) (s s1 : state) (c : client) :
  get_gmaps_client w s = (Return c, s1) ->
  try_except
    (gmaps_client <- get_gmaps_client w ;;
     answer <- call w gmaps_client req ;;
     lift (out answer))
    (fun e => raise_ValueError (prefix ++ exn_str e)) s =
  (match answer <~ upstream w c req ;; out answer with
   | Return v => Return v
   | Raise e => Raise (Exn ValueError (prefix ++ exn_str e))
   end,
   called c req s1).
Proof.
  intros Hc. unfold try_except, bind. rewrite Hc. unfold call, lift, called.
  destruct (upstream w c req) as [answer | e]; simpl; [| reflexivity].
  destruct (out answer); reflexivity.
Qed.

Lemma nonempty_truthy (x : string) : x <> "" -> str_truthy x = true.
Proof. destruct x; [congruence | reflexivity]. Qed.

Lemma nonempty_list_truthy {A} (l : list A) : l <> [] -> list_truthy l = true.
Proof. destruct l; [congruence | reflexivity]. Qed.

Section WithClient.

Variable w : world.
Variables s s1 : state.
Variable c : client.
Hypothesis Hc : get_gmaps_client w s = (Return c, s1).

Lemma maps_place_details_run (place_id : string) :
  place_id <> "" ->
  maps_place_details w place_id s =
    (match answer <~ upstream w c (place place_id place_fields) ;;
           place_details_output answer with
     | Return v => Return v
     | Raise e => Raise (Exn ValueError ("Place details error: " ++ exn_str e))
     end,
     called c (place place_id place_fields) s1).
Proof.
  intros Hp. unfold maps_place_details. rewrite (nonempty_truthy _ Hp).
  cbn [negb]. apply guarded_call_run, Hc.
Qed.

Lemma maps_distance_matrix_run (origins destinations : list string) (mode : string) :
  origins <> [] -> destinations <> [] -> In mode valid_modes ->
  maps_distance_matrix w origins destinations (Some mode) s =
    (match answer <~ upstream w c
                       (distance_matrix origins destinations mode "imperial") ;;
           distance_matrix_output answer with
     | Return v => Return v
     | Raise e => Raise (Exn ValueError ("Distance matrix error: " ++ exn_str e))
     end,
     called c (distance_matrix origins destinations mode "imperial") s1).
Proof.
  intros Ho Hd Hm. apply mode_is_valid_iff in Hm.
  unfold maps_distance_matrix. cbv zeta; cbn [with_default].
  rewrite (nonempty_list_truthy _ Ho), (nonempty_list_truthy _ Hd), Hm.
  cbn [negb]. apply guarded_call_run, Hc.
Qed.

Lemma maps_directions_full_run (origin destination mode : string) :
  origin <> "" -> destination <> "" -> In mode valid_modes ->
  maps_directions w origin destination (Some mode) s =
    (match answer <~ upstream w c (directions origin destination mode "imperial") ;;
           directions_output answer with
     | Return v => Return v
     | Raise e => Raise (Exn ValueError ("Directions error: " ++ exn_str e))
     end,
     called c (directions origin destination mode "imperial") s1).
Proof.
  intros Ho Hd Hm. apply mode_is_valid_iff in Hm.
  unfold maps_directions. cbv zeta; cbn [with_default].
  rewrite (nonempty_truthy _ Ho), (nonempty_truthy _ Hd), Hm.
  cbn [negb]. apply guarded_call_run, Hc.
Qed.

Lemma maps_elevation_run (locations : list (list (string * number)))
    (tuples : list (number * number)) :
  locations <> [] ->
  validate_locations w locations = Return tuples ->
  maps_elevation w locations s =
    (match answer <~ upstream w c (elevation tuples) ;; elevation_output answer with
     | Return v => Return v
     | Raise e => Raise (Exn ValueError ("Elevation error: " ++ exn_str e))
     end,
     called c (elevation tuples) s1).
Proof.
  intros Hl Hv. unfold maps_elevation. rewrite (nonempty_list_truthy _ Hl).
  cbn [negb]. unfold bind at 1, lift at 1. rewrite Hv.
  apply guarded_call_run, Hc.
Qed.

Lemma maps_search_places_run (query : string)
    (location : option (list (string * number))) (radius : option Z)
    (search_params : list (string * value)) :
  query <> "" -> radius_out_of_range radius = false ->
  build_search_params location radius = Return search_params ->
  maps_search_places w query location radius s =
    (match answer <~ upstream w c (places query search_params) ;;
           search_places_output answer with
     | Return v => Return v
     | Raise e => Raise (Exn ValueError ("Places search error: " ++ exn_str e))
     end,
     called c (places query search_params) s1).
Proof.
  intros Hq Hr Hp. unfold maps_search_places.
  rewrite (nonempty_truthy _ Hq), Hr, Hp. cbn [negb].
  unfold try_except, bind. rewrite Hc. unfold lift at 1, call, lift, called.
  destruct (upstream w c (places query search_params)) as [answer | e]; simpl;
    [| reflexivity].
  destruct (search_places_output answer); reflexivity.
Qed.

Lemma maps_geocode_run (address : string) :
  address <> "" ->
  maps_geocode w address s =
    (match results <~ upstream w c (geocode address) ;;
           if negb (truthy results)
           then Raise (Exn ValueError "No results found for the given address")
           else geocode_output results with
     | Return v => Return v
     | Raise e => Raise (Exn ValueError ("Geocoding error: " ++ exn_str e))
     end,
     called c (geocode address) s1).
Proof.
  intros Ha. unfold maps_geocode. rewrite (nonempty_truthy _ Ha). cbn [negb].
  unfold try_except, bind. rewrite Hc. unfold call, lift, called.
  destruct (upstream w c (geocode address)) as [results | e]; simpl;
    [| reflexivity].
  destruct (truthy results); simpl; [| reflexivity].
  destruct (geocode_output results); reflexivity.
Qed.

Lemma maps_reverse_geocode_run (lat lng : number) :
  in_range (-90) lat 90 -> in_range (-180) lng 180 ->
  maps_reverse_geocode w (Some lat) (Some lng) s =
    (match results <~ upstream w c (reverse_geocode (lat, lng)) ;;
           if negb (truthy results)
           then Raise (Exn ValueError "No results found for the given coordinates")
           else reverse_geocode_output results with
     | Return v => Return v
     | Raise e => Raise (Exn ValueError ("Reverse geocoding error: " ++ exn_str e))
     end,
     called c (reverse_geocode (lat, lng)) s1).
Proof.
  intros Hlat Hlng. apply between_iff in Hlat, Hlng.
  unfold maps_reverse_geocode. rewrite Hlat, Hlng. cbn [negb].
  unfold try_except, bind. rewrite Hc. unfold call, lift, called.
  destruct (upstream w c (reverse_geocode (lat, lng))) as [results | e]; simpl;
    [| reflexivity].
  destruct (truthy results); simpl; [| reflexivity].
  destruct (reverse_geocode_output results); reflexivity.
Qed.

(** X5. With arguments that pass the checks and a client at hand, a
    handler sends upstream exactly what it was given: [maps_geocode] the
    address, [maps_place_details] the place id with the same eight fields
    every time, [maps_distance_matrix] and [maps_directions] their
    arguments and mode with imperial units. *)
Theorem handlers_send_their_arguments :
  (forall address, address <> "" ->
     log (snd (maps_geocode w address s)) =
       (log s1 ++ [Called c (geocode address)])%list) /\
  (forall place_id, place_id <> "" ->
     log (snd (maps_place_details w place_id s)) =
       (log s1 ++
        [Called c (place place_id
                     ["name"; "formatted_address"; "geometry";
                      "formatted_phone_number"; "website"; "rating";
                      "reviews"; "opening_hours"])])%list) /\
  (forall origins destinations mode,
     origins <> [] -> destinations <> [] -> In mode valid_modes ->
     log (snd (maps_distance_matrix w origins destinations (Some mode) s)) =
       (log s1 ++
        [Called c (distance_matrix origins destinations mode "imperial")])%list) /\
  (forall origin destination mode,
     origin <> "" -> destination <> "" -> In mode valid_modes ->
     log (snd (maps_directions w origin destination (Some mode) s)) =
       (log s1 ++ [Called c (directions origin destination mode "imperial")])%list).
Proof.
  split; [| split; [| split]].
  - intros address Ha. rewrite (maps_geocode_run address Ha). reflexivity.
  - intros place_id Hp. rewrite (maps_place_details_run place_id Hp). reflexivity.
  - intros origins destinations mode Ho Hd Hm.
    rewrite (maps_distance_matrix_run origins destinations mode Ho Hd Hm).
    reflexivity.
  - intros origin destination mode Ho Hd Hm.
    rewrite (maps_directions_full_run origin destination mode Ho Hd Hm).
    reflexivity.
Qed.


End WithClient.

Lemma handlers_send_their_arguments_witness :
  log (snd (maps_place_details (fixture (Return (VDict []))) "ChIJ" initial)) =
    [Constructed sample_client;
     Called sample_client
       (place "ChIJ" ["name"; "formatted_address"; "geometry";
                      "formatted_phone_number"; "website"; "rating";
                      "reviews"; "opening_hours"])] /\
  log (snd (maps_distance_matrix (fixture (Return (VDict [])))
              ["Oslo"] ["Bergen"; "Tromso"] (Some "transit") initial)) =
    [Constructed sample_client;
     Called sample_client
       (distance_matrix ["Oslo"] ["Bergen"; "Tromso"] "transit" "imperial")].
Proof.
  destruct (handlers_send_their_arguments (fixture (Return (VDict []))) initial
              (State (Some sample_client) 1 [Constructed sample_client])
              sample_client eq_refl)
    as (_ & Hplace & Hmatrix & _).
  split.
  - apply Hplace. discriminate.
  - apply Hmatrix; [discriminate | discriminate | simpl; auto].
Defined.


(* ===================================================================== *)
(** * What the handlers return                                            *)
(* ===================================================================== *)

Lemma get_list_field {A} (d : list (string * value)) (k : string)
    (items : list value) (rest : list value -> result A) :
  list_field d k items ->
  (found <~ get (VDict d) k (VList []) ;; found_items <~ iter found ;;
   rest found_items) = rest items.
Proof.
  unfold get. intros [-> | [-> ->]]; reflexivity.
Qed.

Lemma getitem_dict (d : list (string * value)) (k : string) :
  getitem (VDict d) k =
    match lookup k d with
    | Some x => Return x
    | None => Raise (Exn KeyError (repr_key k))
    end.
Proof. reflexivity. Qed.

Lemma get_geometry (d : list (string * value)) :
  geometry_ok d ->
  exists g,
    get (VDict d) "geometry" (VDict []) = Return (VDict g) /\
    field g "location" (VDict []) = location_of d.
Proof.
  unfold get, location_of.
  intros [H | (g & H)]; rewrite H; [exists [] | exists g]; split; reflexivity.
Qed.


Lemma project_place_entry (p : list (string * value)) :
  geometry_ok p -> project_place (VDict p) = Return (place_entry p).
Proof.
  intros Hg. unfold project_place.
  destruct (get_geometry p Hg) as (g & Hgeo & Hloc). rewrite Hgeo.
  rewrite !get_field. cbn [rbind]. rewrite !get_field. cbn [rbind].
  unfold place_entry. rewrite Hloc. reflexivity.
Qed.

Lemma project_review_entry (r : list (string * value)) :
  project_review (VDict r) = Return (review_entry r).
Proof. unfold project_review. rewrite !get_field. reflexivity. Qed.

Lemma project_element_entry (e : list (string * value)) :
  project_element (VDict e) = Return (element_entry e).
Proof. unfold project_element. rewrite !get_field. reflexivity. Qed.

Lemma project_elevation_entry (e : list (string * value)) :
  project_elevation (VDict e) = Return (elevation_entry e).
Proof. unfold project_elevation. rewrite !get_field. reflexivity. Qed.

Lemma project_row_entry (row : list (string * value))
    (elements : list (list (string * value))) :
  list_field row "elements" (map VDict elements) ->
  project_row (VDict row) = Return (row_entry elements).
Proof.
  intros Hrow. unfold project_row. rewrite (get_list_field row _ _ _ Hrow).
  rewrite (for_each_map project_element VDict element_entry)
    by (intros; apply project_element_entry).
  reflexivity.
Qed.

Section Outputs.

Variable w : world.
Variables s s1 : state.
Variable c : client.
Hypothesis Hc : get_gmaps_client w s = (Return c, s1).

(** X7. [maps_geocode] answers from the first upstream result alone: its
    location, formatted address and place id, whatever results follow.
    None of the three has a default: when the first result lacks its
    geometry, its formatted address or its place id, the call fails with a
    geocoding error. *)
Theorem geocode_answers_from_first_result (address : string)
    (first : list (string * value)) (others : list value) :
  address <> "" ->
  upstream w c (geocode address) = Return (VList (VDict first :: others)) ->
  (forall g location formatted_address place_id,
     lookup "geometry" first = Some (VDict g) ->
     lookup "location" g = Some location ->
     lookup "formatted_address" first = Some formatted_address ->
     lookup "place_id" first = Some place_id ->
     fst (maps_geocode w address s) =
       Return (VDict [("location", location);
                      ("formatted_address", formatted_address);
                      ("place_id", place_id)])) /\
  (lookup "geometry" first = None \/
   lookup "formatted_address" first = None \/
   lookup "place_id" first = None ->
   exists msg,
     fst (maps_geocode w address s) =
       Raise (Exn ValueError ("Geocoding error: " ++ msg))).
Proof.
  intros Ha Hu. rewrite (maps_geocode_run w s s1 c Hc address Ha), Hu.
  cbn [rbind truthy list_truthy negb fst]. unfold geocode_output.
  cbn [getitem0 rbind]. rewrite !getitem_dict. split.
  - intros g location fa pid Hg Hl Hfa Hpid. rewrite Hg, Hfa, Hpid.
    cbn [rbind]. rewrite getitem_dict, Hl. reflexivity.
  - intros Hmiss.
    destruct (lookup "geometry" first) as [g |]; cbn [rbind];
      [| eexists; reflexivity].
    destruct (getitem g "location") as [location | e]; cbn [rbind];
      [| eexists; reflexivity].
    destruct (lookup "formatted_address" first) as [fa |]; cbn [rbind];
      [| eexists; reflexivity].
    destruct (lookup "place_id" first) as [pid |]; cbn [rbind];
      [| eexists; reflexivity].
    destruct Hmiss as [H | [H | H]]; discriminate.
Qed.

(** X8. [maps_reverse_geocode] answers from the first upstream result
    alone, and hands over its address components as they came; a first
    result without formatted address, place id or address components makes
    the call fail. *)
Theorem reverse_geocode_answers_from_first_result (lat lng : number)
    (first : list (string * value)) (others : list value) :
  in_range (-90) lat 90 -> in_range (-180) lng 180 ->
  upstream w c (reverse_geocode (lat, lng)) = Return (VList (VDict first :: others)) ->
  (forall formatted_address place_id address_components,
     lookup "formatted_address" first = Some formatted_address ->
     lookup "place_id" first = Some place_id ->
     lookup "address_components" first = Some address_components ->
     fst (maps_reverse_geocode w (Some lat) (Some lng) s) =
       Return (VDict [("formatted_address", formatted_address);
                      ("place_id", place_id);
                      ("address_components", address_components)])) /\
  (lookup "formatted_address" first = None \/
   lookup "place_id" first = None \/
   lookup "address_components" first = None ->
   exists msg,
     fst (maps_reverse_geocode w (Some lat) (Some lng) s) =
       Raise (Exn ValueError ("Reverse geocoding error: " ++ msg))).
Proof.
  intros Hlat Hlng Hu.
  rewrite (maps_reverse_geocode_run w s s1 c Hc lat lng Hlat Hlng), Hu.
  cbn [rbind truthy list_truthy negb fst]. unfold reverse_geocode_output.
  cbn [getitem0 rbind]. rewrite !getitem_dict. split.
  - intros fa pid comps Hfa Hpid Hcomps. rewrite Hfa, Hpid, Hcomps. reflexivity.
  - intros Hmiss.
    destruct (lookup "formatted_address" first) as [fa |]; cbn [rbind];
      [| eexists; reflexivity].
    destruct (lookup "place_id" first) as [pid |]; cbn [rbind];
      [| eexists; reflexivity].
    destruct (lookup "address_components" first) as [comps |]; cbn [rbind];
      [| eexists; reflexivity].
    destruct Hmiss as [H | [H | H]]; discriminate.
Qed.

End Outputs.

Lemma geocode_answers_from_first_result_witness :
  let first := [("geometry", VDict [("location", VDict [("lat", VNum (NInt 52))])]);
                ("formatted_address", VStr "Berlin");
                ("place_id", VStr "ChIJAVkDPzdOqEcR")] in
  fst (maps_geocode
         (fixture (Return (VList [VDict first; VDict [("place_id", VStr "other")]])))
         "Berlin" initial) =
    Return (VDict [("location", VDict [("lat", VNum (NInt 52))]);
                   ("formatted_address", VStr "Berlin");
                   ("place_id", VStr "ChIJAVkDPzdOqEcR")]) /\
  exists msg,
    fst (maps_geocode (fixture (Return (VList [VDict [("place_id", VStr "x")]])))
           "Berlin" initial) =
      Raise (Exn ValueError ("Geocoding error: " ++ msg)).
Proof.
  intros first. split.
  - apply (proj1 (geocode_answers_from_first_result
                    (fixture (Return (VList [VDict first;
                                             VDict [("place_id", VStr "other")]])))
                    initial
                    (State (Some sample_client) 1 [Constructed sample_client])
                    sample_client eq_refl "Berlin" first
                    [VDict [("place_id", VStr "other")]]
                    ltac:(discriminate) eq_refl)
             [("location", VDict [("lat", VNum (NInt 52))])]
             (VDict [("lat", VNum (NInt 52))]) (VStr "Berlin")
             (VStr "ChIJAVkDPzdOqEcR") eq_refl eq_refl eq_refl eq_refl).
  - apply (proj2 (geocode_answers_from_first_result
                    (fixture (Return (VList [VDict [("place_id", VStr "x")]])))
                    initial
                    (State (Some sample_client) 1 [Constructed sample_client])
                    sample_client eq_refl "Berlin" [("place_id", VStr "x")] []
                    ltac:(discriminate) eq_refl)).
    left. reflexivity.
Defined.

Lemma reverse_geocode_answers_from_first_result_witness :
  let first := [("formatted_address", VStr "Karl Johans gate 1");
                ("place_id", VStr "ChIJ0");
                ("address_components",
                 VList [VDict [("long_name", VStr "Oslo")]; VNone])] in
  fst (maps_reverse_geocode (fixture (Return (VList [VDict first; VStr "more"])))
         (Some (NInt 59)) (Some (NInt 10)) initial) =
    Return (VDict first).
Proof.
  intros first.
  apply (proj1 (reverse_geocode_answers_from_first_result
                  (fixture (Return (VList [VDict first; VStr "more"]))) initial
                  (State (Some sample_client) 1 [Constructed sample_client])
                  sample_client eq_refl (NInt 59) (NInt 10) first [VStr "more"]
                  ltac:(simpl; lia) ltac:(simpl; lia) eq_refl)
           (VStr "Karl Johans gate 1") (VStr "ChIJ0")
           (VList [VDict [("long_name", VStr "Oslo")]; VNone])
           eq_refl eq_refl eq_refl).
Defined.

Lemma build_search_params_total (location : option (list (string * number)))
    (radius : option Z) :
  (forall loc, location = Some loc -> loc = [] \/ ~ missing_field loc) ->
  exists search_params, build_search_params location radius = Return search_params.
Proof.
  intros Hloc. destruct location as [loc |]; [| eexists; reflexivity].
  destruct (Hloc loc eq_refl) as [-> | Hok]; [eexists; reflexivity |].
  unfold build_search_params, contains, getitem_num. unfold missing_field in Hok.
  destruct loc; [eexists; reflexivity |]. cbn [list_truthy].
  destruct (lookup "latitude" (p :: loc)); [| tauto].
  destruct (lookup "longitude" (p :: loc)); [| tauto].
  cbn [negb orb rbind].
  destruct radius as [r |]; [| eexists; reflexivity].
  destruct (negb (r =? 0)); eexists; reflexivity.
Qed.

Section Listings.

Variable w : world.
Variables s s1 : state.
Variable c : client.
Hypothesis Hc : get_gmaps_client w s = (Return c, s1).

(** X9. [maps_search_places] returns one entry per upstream result, in
    the upstream order, each with the six keys name, formatted_address,
    location, place_id, rating and types; a field the upstream record has
    is handed over as it is, a missing one becomes the empty string, the
    empty dictionary, [None] or the empty list. An answer without
    [results] gives no places. No missing field makes the call fail. *)
Theorem search_places_lists_every_result (query : string)
    (location : option (list (string * number))) (radius : option Z)
    (answer : list (string * value)) (found : list (list (string * value))) :
  query <> "" ->
  radius_out_of_range radius = false ->
  (forall loc, location = Some loc -> loc = [] \/ ~ missing_field loc) ->
  (forall search_params,
     upstream w c (places query search_params) = Return (VDict answer)) ->
  list_field answer "results" (map VDict found) ->
  Forall geometry_ok found ->
  fst (maps_search_places w query location radius s) =
    Return (VDict [("places", VList (map place_entry found))]).
Proof.
  intros Hq Hr Hloc Hu Hres Hgeo.
  destruct (build_search_params_total location radius Hloc) as (sp & Hsp).
  rewrite (maps_search_places_run w s s1 c Hc query location radius sp Hq Hr Hsp).
  rewrite Hu. cbn [rbind fst]. unfold search_places_output.
  rewrite (get_list_field answer _ _ _ Hres).
  rewrite (for_each_map project_place VDict place_entry).
  - reflexivity.
  - intros p Hp. apply project_place_entry.
    rewrite Forall_forall in Hgeo. auto.
Qed.


(** X11. [maps_place_details] returns the eight keys of its output
    whatever the upstream record holds: fields that are there are handed
    over, missing texts become the empty string, a missing rating [None],
    missing opening hours the empty dictionary, and each review is cut
    down to author_name, rating, text and time with "" and 0 for what it
    lacks. An answer without [result] gives the defaults throughout. *)
Theorem place_details_fills_defaults (place_id : string)
    (answer place_data : list (string * value))
    (reviews : list (list (string * value))) :
  place_id <> "" ->
  upstream w c (place place_id place_fields) = Return (VDict answer) ->
  lookup "result" answer = Some (VDict place_data) \/
    (lookup "result" answer = None /\ place_data = []) ->
  list_field place_data "reviews" (map VDict reviews) ->
  geometry_ok place_data ->
  fst (maps_place_details w place_id s) = Return (details_entry place_data reviews).
Proof.
  intros Hp Hu Hres Hrev Hgeo.
  rewrite (maps_place_details_run w s s1 c Hc place_id Hp).
  rewrite Hu. cbn [rbind fst]. unfold place_details_output.
  assert (Hdata : get (VDict answer) "result" (VDict []) = Return (VDict place_data)).
  { unfold get. destruct Hres as [-> | [-> ->]]; reflexivity. }
  rewrite Hdata. cbn [rbind].
  rewrite (get_list_field place_data _ _ _ Hrev).
  rewrite (for_each_map project_review VDict review_entry)
    by (intros; apply project_review_entry).
  cbn [rbind].
  destruct (get_geometry place_data Hgeo) as (g & Hg & Hloc). rewrite Hg.
  rewrite !get_field. cbn [rbind]. rewrite !get_field. cbn [rbind].
  unfold details_entry. rewrite Hloc. reflexivity.
Qed.

(** X12. [maps_distance_matrix] keeps the shape of the upstream grid: one
    output row per upstream row and one element per upstream element, in
    order, each element reduced to status, duration and distance (the
    last two [None] when upstream has none); the two address lists are
    handed over, or empty when missing. *)
Theorem distance_matrix_keeps_the_grid (origins destinations : list string)
    (mode : string) (answer : list (string * value))
    (rows : list (list (string * value) * list (list (string * value)))) :
  origins <> [] -> destinations <> [] -> In mode valid_modes ->
  upstream w c (distance_matrix origins destinations mode "imperial") =
    Return (VDict answer) ->
  list_field answer "rows" (map (fun row => VDict (fst row)) rows) ->
  Forall (fun row => list_field (fst row) "elements" (map VDict (snd row))) rows ->
  fst (maps_distance_matrix w origins destinations (Some mode) s) =
    Return (VDict [("origin_addresses", field answer "origin_addresses" (VList []));
                   ("destination_addresses",
                    field answer "destination_addresses" (VList []));
                   ("results", VList (map (fun row => row_entry (snd row)) rows))]).
Proof.
  intros Ho Hd Hm Hu Hrows Hels.
  rewrite (maps_distance_matrix_run w s s1 c Hc origins destinations mode Ho Hd Hm).
  rewrite Hu. cbn [rbind fst]. unfold distance_matrix_output.
  rewrite (get_list_field answer _ _ _ Hrows).
  rewrite (for_each_map project_row (fun row => VDict (fst row))
             (fun row => row_entry (snd row))).
  - cbn [rbind]. rewrite !get_field. reflexivity.
  - intros row Hrow. apply project_row_entry.
    rewrite Forall_forall in Hels. auto.
Qed.

(** X13. [maps_elevation] returns one entry per upstream entry, in order
    (so parallel to the locations when upstream answers in order), with
    elevation and resolution 0 and an empty location for what an entry
    lacks. *)
Theorem elevation_lists_every_entry (loc : list (string * number))
    (locations : list (list (string * number)))
    (entries : list (list (string * value))) :
  Forall valid_location (loc :: locations) ->
  (forall tuples, upstream w c (elevation tuples) = Return (VList (map VDict entries))) ->
  fst (maps_elevation w (loc :: locations) s) =
    Return (VDict [("results", VList (map elevation_entry entries))]).
Proof.
  intros Hall Hu.
  destruct (validate_locations_valid w (loc :: locations) Hall) as (ts & _ & Happ).
  specialize (Happ []). rewrite app_nil_r in Happ.
  cbn [validate_locations rbind] in Happ. rewrite app_nil_r in Happ.
  rewrite (maps_elevation_run w s s1 c Hc (loc :: locations) ts
             ltac:(discriminate) Happ).
  rewrite Hu. cbn [rbind fst]. unfold elevation_output. cbn [iter rbind].
  rewrite (for_each_map project_elevation VDict elevation_entry)
    by (intros; apply project_elevation_entry).
  reflexivity.
Qed.

End Listings.

Lemma search_places_lists_every_result_witness :
  let answer := [("status", VStr "OK");
                 ("results", VList [VDict [("name", VStr "Luigi");
                                           ("geometry", VDict [("location", VStr "here")])];
                                    VDict [("rating", VNum (NInt 4))]])] in
  fst (maps_search_places (fixture (Return (VDict answer))) "pizza"
         (Some [("latitude", NInt 1); ("longitude", NInt 2)]) (Some 50000) initial) =
    Return (VDict [("places",
                    VList [VDict [("name", VStr "Luigi");
                                  ("formatted_address", VStr "");
                                  ("location", VStr "here");
                                  ("place_id", VStr "");
                                  ("rating", VNone);
                                  ("types", VList [])];
                           VDict [("name", VStr "");
                                  ("formatted_address", VStr "");
                                  ("location", VDict []);
                                  ("place_id", VStr "");
                                  ("rating", VNum (NInt 4));
                                  ("types", VList [])]])]).
Proof.
  intros answer.
  apply (search_places_lists_every_result (fixture (Return (VDict answer))) initial
           (State (Some sample_client) 1 [Constructed sample_client])
           sample_client eq_refl "pizza"
           (Some [("latitude", NInt 1); ("longitude", NInt 2)]) (Some 50000) answer
           [[("name", VStr "Luigi"); ("geometry", VDict [("location", VStr "here")])];
            [("rating", VNum (NInt 4))]]).
  - discriminate.
  - reflexivity.
  - intros loc H. inversion H; subst. right. intros [E | E]; discriminate.
  - intros sp. reflexivity.
  - left. reflexivity.
  - constructor; [right; eexists; reflexivity |].
    constructor; [left; reflexivity | constructor].
Defined.


Lemma place_details_fills_defaults_witness :
  fst (maps_place_details
         (fixture (Return (VDict [("result",
                                   VDict [("name", VStr "Cafe");
                                          ("reviews",
                                           VList [VDict [("text", VStr "good")]])])])))
         "ChIJ" initial) =
    Return (VDict [("name", VStr "Cafe");
                   ("formatted_address", VStr "");
                   ("location", VDict []);
                   ("formatted_phone_number", VStr "");
                   ("website", VStr "");
                   ("rating", VNone);
                   ("reviews",
                    VList [VDict [("author_name", VStr "");
                                  ("rating", VNum (NInt 0));
                                  ("text", VStr "good");
                                  ("time", VNum (NInt 0))]]);
                   ("opening_hours", VDict [])]).
Proof.
  apply (place_details_fills_defaults
           (fixture (Return (VDict [("result",
                                     VDict [("name", VStr "Cafe");
                                            ("reviews",
                                             VList [VDict [("text", VStr "good")]])])])))
           initial
           (State (Some sample_client) 1 [Constructed sample_client])
           sample_client eq_refl "ChIJ"
           [("result", VDict [("name", VStr "Cafe");
                              ("reviews", VList [VDict [("text", VStr "good")]])])]
           [("name", VStr "Cafe"); ("reviews", VList [VDict [("text", VStr "good")]])]
           [[("text", VStr "good")]]).
  - discriminate.
  - reflexivity.
  - left. reflexivity.
  - left. reflexivity.
  - left. reflexivity.
Defined.

Lemma distance_matrix_keeps_the_grid_witness :
  let element := [("status", VStr "OK"); ("distance", VDict [("text", VStr "3 mi")])] in
  let row := [("elements", VList [VDict element; VDict [("status", VStr "NOT_FOUND")]])] in
  let answer := [("origin_addresses", VList [VStr "Oslo, Norway"]);
                 ("rows", VList [VDict row])] in
  fst (maps_distance_matrix (fixture (Return (VDict answer)))
         ["Oslo"] ["Bergen"; "Nowhere"] (Some "walking") initial) =
    Return (VDict [("origin_addresses", VList [VStr "Oslo, Norway"]);
                   ("destination_addresses", VList []);
                   ("results",
                    VList [VDict [("elements",
                                   VList [VDict [("status", VStr "OK");
                                                 ("duration", VNone);
                                                 ("distance",
                                                  VDict [("text", VStr "3 mi")])];
                                          VDict [("status", VStr "NOT_FOUND");
                                                 ("duration", VNone);
                                                 ("distance", VNone)]])]])]).
Proof.
  intros element row answer.
  apply (distance_matrix_keeps_the_grid (fixture (Return (VDict answer))) initial
           (State (Some sample_client) 1 [Constructed sample_client])
           sample_client eq_refl ["Oslo"] ["Bergen"; "Nowhere"] "walking" answer
           [(row, [element; [("status", VStr "NOT_FOUND")]])]).
  - discriminate.
  - discriminate.
  - simpl; auto.
  - reflexivity.
  - left. reflexivity.
  - repeat constructor.
Defined.

Lemma elevation_lists_every_entry_witness :
  fst (maps_elevation
         (fixture (Return (VList [VDict [("elevation", VNum (NInt 12))]; VDict []])))
         [[("latitude", NInt 1); ("longitude", NInt 2)];
          [("latitude", NInt 3); ("longitude", NInt 4)]] initial) =
    Return (VDict [("results",
                    VList [VDict [("elevation", VNum (NInt 12));
                                  ("location", VDict []);
                                  ("resolution", VNum (NInt 0))];
                           VDict [("elevation", VNum (NInt 0));
                                  ("location", VDict []);
                                  ("resolution", VNum (NInt 0))]])]).
Proof.
  apply (elevation_lists_every_entry
           (fixture (Return (VList [VDict [("elevation", VNum (NInt 12))]; VDict []])))
           initial
           (State (Some sample_client) 1 [Constructed sample_client])
           sample_client eq_refl
           [("latitude", NInt 1); ("longitude", NInt 2)]
           [[("latitude", NInt 3); ("longitude", NInt 4)]]
           [[("elevation", VNum (NInt 12))]; []]).
  - repeat constructor.
    + exists (NInt 1), (NInt 2). repeat split; simpl; lia.
    + exists (NInt 3), (NInt 4). repeat split; simpl; lia.
  - intros tuples. reflexivity.
Defined.

(* ===================================================================== *)
(** * Argument checks                                                     *)
(* ===================================================================== *)

(** What a guarded block raises starts with the handler's prefix. *)
Lemma guarded_raise_has_prefix {A} (m : M A) (prefix : string)
    (s s' : state) (e : exn) :
  try_except m (fun e => raise_ValueError (prefix ++ exn_str e)) s = (Raise e, s') ->
  exists text, exn_str e = prefix ++ text.
Proof.
  unfold try_except. destruct (m s) as [[a | e0] t]; [discriminate |].
  intros H. inversion H. simpl. eauto.
Qed.

(** X14. [maps_search_places] accepts a radius from 1 to 50000 and no
    other: with a query, the radius error is raised, before anything else
    is done, exactly when the radius is 0 or less, or more than 50000. *)
Theorem search_places_radius_bounds (w : world) (query : string)
    (location : option (list (string * number))) (r : Z) (s : state) :
  query <> "" ->
  (maps_search_places w query location (Some r) s =
     (Raise (Exn ValueError "radius must be between 1 and 50000 meters"), s)
   <-> r <= 0 \/ 50000 < r).
Proof.
  intros Hq. split.
  - intros Hrun.
    destruct (Z_le_gt_dec r 0) as [|Hpos]; [left; assumption |].
    destruct (Z_lt_le_dec 50000 r) as [|Hmax]; [right; assumption |].
    exfalso. unfold maps_search_places in Hrun.
    rewrite (nonempty_truthy _ Hq), (radius_in_range r ltac:(lia)) in Hrun.
    cbn [negb] in Hrun.
    destruct (guarded_raise_has_prefix _ _ _ _ _ Hrun) as (text & Htext).
    simpl in Htext. discriminate.
  - intros Hr.
    apply (proj2 (search_places_ordered_checks w query location (Some r) s)).
    + apply nonempty_truthy, Hq.
    + exists r. auto.
Qed.

Lemma search_places_radius_bounds_witness :
  maps_search_places (fixture (Return (VDict []))) "pizza" None (Some 50001) initial =
    (Raise (Exn ValueError "radius must be between 1 and 50000 meters"), initial)
  <-> 50001 <= 0 \/ 50000 < 50001.
Proof.
  apply (search_places_radius_bounds (fixture (Return (VDict []))) "pizza" None
           50001 initial).
  discriminate.
Defined.

(** X15. An empty required argument is rejected first, whatever the other
    arguments, the world and the state are, and the state is left as it
    was: the empty address, place id, query, origin, destination, list of
    origins, of destinations or of locations, and a missing latitude or
    longitude. Among the arguments of one handler the checks follow the
    order of the parameters, the mode last. *)
Theorem empty_required_argument_rejected (w : world) (s : state) :
  maps_geocode w "" s =
    (Raise (Exn ValueError "address parameter is required"), s) /\
  (forall latitude longitude,
     latitude = None \/ longitude = None ->
     maps_reverse_geocode w latitude longitude s =
       (Raise (Exn ValueError "latitude and longitude parameters are required"), s)) /\
  (forall location radius,
     maps_search_places w "" location radius s =
       (Raise (Exn ValueError "query parameter is required"), s)) /\
  maps_place_details w "" s =
    (Raise (Exn ValueError "place_id parameter is required"), s) /\
  (forall destinations mode,
     maps_distance_matrix w [] destinations mode s =
       (Raise (Exn ValueError "origins parameter is required and cannot be empty"), s)) /\
  (forall origins mode,
     origins <> [] ->
     maps_distance_matrix w origins [] mode s =
       (Raise (Exn ValueError "destinations parameter is required and cannot be empty"),
        s)) /\
  maps_elevation w [] s =
    (Raise (Exn ValueError "locations parameter is required and cannot be empty"), s) /\
  (forall destination mode,
     maps_directions w "" destination mode s =
       (Raise (Exn ValueError "origin parameter is required"), s)) /\
  (forall origin mode,
     origin <> "" ->
     maps_directions w origin "" mode s =
       (Raise (Exn ValueError "destination parameter is required"), s)).
Proof.
  repeat split; try reflexivity.
  - intros latitude longitude [-> | ->]; [reflexivity |].
    destruct latitude; reflexivity.
  - intros origins mode Ho. unfold maps_distance_matrix.
    rewrite (nonempty_list_truthy _ Ho). reflexivity.
  - intros origin mode Ho. unfold maps_directions.
    rewrite (nonempty_truthy _ Ho). reflexivity.
Qed.

Lemma empty_required_argument_rejected_witness :
  maps_reverse_geocode no_credential (Some (NInt 500)) None initial =
    (Raise (Exn ValueError "latitude and longitude parameters are required"),
     initial) /\
  maps_directions no_credential "Home" "" (Some "teleport") initial =
    (Raise (Exn ValueError "destination parameter is required"), initial).
Proof.
  destruct (empty_required_argument_rejected no_credential initial)
    as (_ & Hrev & _ & _ & _ & _ & _ & _ & Hdir).
  split.
  - apply Hrev. right. reflexivity.
  - apply Hdir. discriminate.
Defined.

(* ===================================================================== *)
(** * No answer without asking upstream                                   *)
(* ===================================================================== *)

Section Answers.

Variable w : world.

Lemma returns_after_call_then_still {B} (c : client) (r : request)
    (k : value -> M B) :
  (forall a, still (k a)) ->
  returns_after_call c (bind (call w c r) k).
Proof.
  intros Hk s v _. exists r. unfold bind, call.
  destruct (upstream w c r) as [a | e]; [| reflexivity].
  apply (Hk a).
Qed.

Lemma returns_after_call_after_lift {A B} (c : client) (x : result A)
    (k : A -> M B) :
  (forall a, returns_after_call c (k a)) ->
  returns_after_call c (bind (lift x) k).
Proof.
  intros Hk. destruct x as [a | e].
  - exact (Hk a).
  - intros s v H. discriminate.
Qed.

Lemma answers_raise {A} (msg : string) : answers_by_calling w (@raise_ValueError A msg).
Proof. intros s v H. discriminate. Qed.

Lemma answers_after_lift {A B} (x : result A) (k : A -> M B) :
  (forall a, answers_by_calling w (k a)) -> answers_by_calling w (bind (lift x) k).
Proof.
  intros Hk. destruct x as [a | e].
  - exact (Hk a).
  - intros s v H. discriminate.
Qed.

Lemma answers_guarded {A} (body : client -> M A) (prefix : string) :
  (forall c, returns_after_call c (body c)) ->
  answers_by_calling w
    (try_except (bind (get_gmaps_client w) body)
       (fun e => raise_ValueError (prefix ++ exn_str e))).
Proof.
  intros Hbody s v. unfold try_except, bind.
  destruct (get_gmaps_client w s) as [[c | e] s1] eqn:Hc; [| discriminate].
  specialize (Hbody c s1).
  destruct (body c s1) as [[a | e] t]; [| discriminate].
  intros _. destruct (Hbody a eq_refl) as (r & Hr).
  exists c, s1, r. split; [reflexivity | exact Hr].
Qed.

End Answers.

Ltac returns_step :=
  match goal with
  | |- returns_after_call _ (bind (call _ _ _) _) =>
      apply returns_after_call_then_still; intros ?; repeat still_step
  | |- returns_after_call _ (bind (lift _) _) =>
      apply returns_after_call_after_lift; intros ?
  end.

Ltac answers_step :=
  match goal with
  | |- answers_by_calling _ (if ?b then _ else _) => destruct b
  | |- answers_by_calling _ (match ?o with _ => _ end) => destruct o
  | |- answers_by_calling _ (raise_ValueError _) => apply answers_raise
  | |- answers_by_calling _ (bind (lift _) _) => apply answers_after_lift; intros ?
  | |- answers_by_calling _ (try_except (bind (get_gmaps_client _) _) _) =>
      apply answers_guarded; intros ?; repeat returns_step
  end.

(** X16. A tool call that returns a value has asked upstream: the
    accessor gave a client and exactly one upstream operation was made on
    it, the last thing in the log. No handler answers from its arguments
    alone or from an earlier answer. *)
Theorem handlers_answer_by_calling (w : world) (h : handler) (a : arguments h)
    (s : state) (v : value) :
  fst (invoke w h a s) = Return v ->
  exists c s1 r,
    get_gmaps_client w s = (Return c, s1) /\
    gmaps (snd (invoke w h a s)) = Some c /\
    log (snd (invoke w h a s)) = (log s1 ++ [Called c r])%list.
Proof.
  intros Hv.
  assert (H : answers_by_calling w (invoke w h a)).
  { clear Hv. destruct h; simpl in a |- *.
    - unfold maps_geocode. repeat answers_step.
    - destruct a as [latitude longitude]. unfold maps_reverse_geocode.
      repeat answers_step.
    - destruct a as [[query location] radius]. unfold maps_search_places.
      repeat answers_step.
    - unfold maps_place_details. repeat answers_step.
    - destruct a as [[origins destinations] mode]. unfold maps_distance_matrix.
      cbv zeta. repeat answers_step.
    - unfold maps_elevation. repeat answers_step.
    - destruct a as [[origin destination] mode]. unfold maps_directions.
      cbv zeta. repeat answers_step. }
  destruct (H s v Hv) as (c & s1 & r & Hc & ->).
  exists c, s1, r. split; [exact Hc |]. split; [| reflexivity].
  simpl. exact (get_gmaps_client_returns w s s1 c Hc).
Qed.

Lemma handlers_answer_by_calling_witness :
  exists c s1 r,
    get_gmaps_client (fixture (Return (VList []))) initial = (Return c, s1) /\
    gmaps (snd (invoke (fixture (Return (VList []))) h_maps_elevation
                  [[("latitude", NInt 1); ("longitude", NInt 2)]] initial)) = Some c /\
    log (snd (invoke (fixture (Return (VList []))) h_maps_elevation
                [[("latitude", NInt 1); ("longitude", NInt 2)]] initial)) =
      (log s1 ++ [Called c r])%list.
Proof.
  apply (handlers_answer_by_calling (fixture (Return (VList []))) h_maps_elevation
           [[("latitude", NInt 1); ("longitude", NInt 2)]] initial
           (VDict [("results", VList [])])).
  reflexivity.
Defined.
